(** * Layers of a progressively grown GAN (layers.py)

    A shallow embedding of [layers.py]: the equalized convolution,
    deconvolution and linear layers, the minibatch standard deviation
    layer, the pixelwise normalisation, the fade-in blender and the
    nearest-neighbour upsampler.

    Conventions of the embedding.
    - A tensor is its shape together with its contiguous row-major
      storage.  Tensor elements are real numbers: the arithmetic of the
      tensor runtime is idealised (no rounding, no NaN), and the order in
      which a reduction adds its terms is therefore irrelevant.
    - Python scalars that never enter a tensor reduction (the [alpha] of
      [Fadein]) are IEEE 754 binary64 numbers, with the operations of
      [SpecFloat] at precision 53.
    - Python integers are [Z]; tensor sizes are [nat].
    - A call that can raise returns a [result]. *)

From Stdlib Require Import ZArith List Bool Lia Arith PeanoNat.
From Stdlib Require Import Reals Lra.
From Stdlib Require Import Floats.SpecFloat.
Import ListNotations.

(** ** Exceptions and the error monad *)

Inductive exn : Type :=
| ZeroDivisionError   (* Python: integer or float division by zero *)
| IndexError          (* Python: list index out of range *)
| AttributeError       (* Python: attribute never assigned *)
| RuntimeError.       (* torch: shape mismatch *)

Inductive result (A : Type) : Type :=
| Ok (a : A)
| Raise (e : exn).
Arguments Ok {A} a.
Arguments Raise {A} e.

Definition bind {A B : Type} (r : result A) (k : A -> result B) : result B :=
  match r with
  | Ok a => k a
  | Raise e => Raise e
  end.

Notation "x <- r ;; k" := (bind r (fun x => k))
  (at level 61, r at next level, right associativity).

(** ** Python floats (binary64) *)

Module PyFloat.

Definition prec : Z := 53.
Definition emax : Z := 1024.

Definition float : Type := spec_float.

Definition of_Z (z : Z) : float := binary_normalize prec emax z 0 false.
Definition add : float -> float -> float := SFadd prec emax.
Definition sub : float -> float -> float := SFsub prec emax.
Definition div : float -> float -> float := SFdiv prec emax.
Definition neg : float -> float := SFopp.
Definition ltb : float -> float -> bool := SFltb.
Definition leb : float -> float -> bool := SFleb.

(** A decimal literal [n/10^k]: the binary64 number nearest to it. *)
Definition lit (num den : Z) : float := div (of_Z num) (of_Z den).

Definition zero : float := S754_zero false.
Definition one : float := of_Z 1.

(** Python's [min(a, b)] and [max(a, b)] scan their arguments from the
    left and replace the current candidate only when the next item is
    strictly smaller (resp. larger).  A comparison with NaN is false. *)
Definition py_min (a b : float) : float := if ltb b a then b else a.
Definition py_max (a b : float) : float := if ltb a b then b else a.

(** The real number a finite float denotes (0 for infinities and NaN,
    which denote no real number). *)
Definition to_R (f : float) : R :=
  match f with
  | S754_finite s m e =>
      let v := IZR (Zpos m) in
      let v := if s then (- v)%R else v in
      match e with
      | Z0 => v
      | Zpos p => (v * IZR (Z.pow_pos 2 p))%R
      | Zneg p => (v / IZR (Z.pow_pos 2 p))%R
      end
  | _ => 0%R
  end.

Definition is_finite (f : float) : bool :=
  match f with
  | S754_zero _ | S754_finite _ _ _ => true
  | _ => false
  end.

End PyFloat.

(** ** The tensor runtime

    The operations of torch that [layers.py] calls, on contiguous
    row-major storage.  An operation that torch defines index by index is
    tabulated over the flat index of its result; concatenation and
    nearest-neighbour interpolation are written on the storage itself. *)

Module Torch.

Record tensor : Type := mkT { shape : list nat; data : list R }.

Definition numel (s : list nat) : nat := fold_right Nat.mul 1 s.

(** The storage holds exactly the elements of the shape. *)
Definition wf (t : tensor) : Prop := length (data t) = numel (shape t).

Definition tabulate {A : Type} (n : nat) (f : nat -> A) : list A :=
  map f (seq 0 n).

(** Element at a flat index. *)
Definition at_ (t : tensor) (k : nat) : R := nth k (data t) 0%R.

(** Element of a 4-dimensional tensor at [n, c, h, w]. *)
Definition get4 (t : tensor) (n c h w : nat) : R :=
  match shape t with
  | [_; C; H; W] => at_ t (((n * C + c) * H + h) * W + w)
  | _ => 0%R
  end.

Definition sum (l : list R) : R := fold_right Rplus 0%R l.
Definition mean (l : list R) : R := (sum l / INR (length l))%R.

(** [t.size(d)] for a literal, non-negative [d]. *)
Definition size (t : tensor) (d : nat) : result Z :=
  match nth_error (shape t) d with
  | Some n => Ok (Z.of_nat n)
  | None => Raise IndexError
  end.

(** *** Pointwise operations *)

Definition map_t (f : R -> R) (t : tensor) : tensor :=
  mkT (shape t) (map f (data t)).

Definition mul_scalar (t : tensor) (s : R) : tensor :=
  map_t (fun v => (v * s)%R) t.
Definition div_scalar (t : tensor) (s : R) : tensor :=
  map_t (fun v => (v / s)%R) t.
Definition add_scalar (t : tensor) (s : R) : tensor :=
  map_t (fun v => (v + s)%R) t.
Definition pow2 (t : tensor) : tensor := map_t (fun v => (v ^ 2)%R) t.
Definition sqrt_t (t : tensor) : tensor := map_t sqrt t.

(** [t.mean()] over all elements. *)
Definition mean_all (t : tensor) : R := mean (data t).

(** *** reshape and view

    The requested sizes are Python integers.  One of them may be [-1]
    and is then inferred; any other negative size is refused, and so is
    an inference whose known sizes multiply to 0. *)

Definition infer_size (dims : list Z) (n : nat) : result (list nat) :=
  if existsb (fun d => Z.ltb d (-1)) dims then Raise RuntimeError
  else
    let known := filter (fun d => negb (Z.eqb d (-1))) dims in
    let newsize := Z.to_nat (fold_right Z.mul 1%Z known) in
    match length dims - length known with
    | 0 =>
        if newsize =? n then Ok (map Z.to_nat dims)
        else Raise RuntimeError
    | 1 =>
        if (0 <? newsize) && (n mod newsize =? 0)
        then Ok (map (fun d => if Z.eqb d (-1) then n / newsize
                               else Z.to_nat d) dims)
        else Raise RuntimeError
    | _ => Raise RuntimeError
    end.

Definition reshape (t : tensor) (dims : list Z) : result tensor :=
  s <- infer_size dims (numel (shape t)) ;;
  Ok (mkT s (data t)).

(** *** Mean along one dimension *)

Definition mean_dim (t : tensor) (dim : nat) (keepdim : bool)
  : result tensor :=
  match nth_error (shape t) dim with
  | None => Raise IndexError
  | Some d =>
      let pre := firstn dim (shape t) in
      let post := skipn (S dim) (shape t) in
      let inner := numel post in
      Ok (mkT (pre ++ (if keepdim then [1] else []) ++ post)
            (tabulate (numel pre * inner) (fun k =>
               mean (tabulate d (fun j =>
                 at_ t (((k / inner) * d + j) * inner + k mod inner))))))
  end.

(** *** Broadcasting

    Shapes are aligned on their last dimension, so both functions work
    on reversed shapes.  [bc_offset rs ra k] is the flat index, in an
    operand of reversed shape [ra], of the element that the flat index
    [k] of the result (of reversed shape [rs]) reads. *)

Fixpoint bc_shape (ra rb : list nat) : option (list nat) :=
  match ra, rb with
  | [], _ => Some rb
  | _, [] => Some ra
  | a :: ra', b :: rb' =>
      match bc_shape ra' rb' with
      | None => None
      | Some r =>
          if a =? b then Some (a :: r)
          else if a =? 1 then Some (b :: r)
          else if b =? 1 then Some (a :: r)
          else None
      end
  end.

Fixpoint bc_offset (rs ra : list nat) (k : nat) : nat :=
  match rs, ra with
  | d :: rs', a :: ra' =>
      (if a =? 1 then 0 else k mod d) + a * bc_offset rs' ra' (k / d)
  | _, _ => 0
  end.

(** The storage of [t] expanded to the reversed shape [rs]. *)
Definition expand_to (t : tensor) (rs : list nat) : list R :=
  tabulate (numel rs) (fun k => at_ t (bc_offset rs (rev (shape t)) k)).


Definition bop (f : R -> R -> R) (a b : tensor) : result tensor :=
  match bc_shape (rev (shape a)) (rev (shape b)) with
  | None => Raise RuntimeError
  | Some rs =>
      Ok (mkT (rev rs)
            (tabulate (numel rs) (fun k =>
               f (at_ a (bc_offset rs (rev (shape a)) k))
                 (at_ b (bc_offset rs (rev (shape b)) k)))))
  end.

Definition add : tensor -> tensor -> result tensor := bop Rplus.
Definition sub : tensor -> tensor -> result tensor := bop Rminus.
Definition div : tensor -> tensor -> result tensor := bop Rdiv.

(** [a.expand_as(b)] *)
Definition expand_as (a b : tensor) : result tensor :=
  match bc_shape (rev (shape a)) (rev (shape b)) with
  | Some rs =>
      if list_eq_dec Nat.eq_dec rs (rev (shape b))
      then Ok (mkT (shape b) (expand_to a rs))
      else Raise RuntimeError
  | None => Raise RuntimeError
  end.

(** *** repeat *)

Fixpoint rep_offset (rs reps : list nat) (k : nat) : nat :=
  match rs, reps with
  | d :: rs', r :: reps' =>
      (k mod (d * r)) mod d + d * rep_offset rs' reps' (k / (d * r))
  | _, _ => 0
  end.

Definition repeat_ (t : tensor) (reps : list Z) : result tensor :=
  if existsb (fun r => Z.ltb r 0) reps
     || (length reps <? length (shape t))
  then Raise RuntimeError
  else
    let reps' := rev (map Z.to_nat reps) in
    let rs := rev (shape t)
              ++ List.repeat 1 (length reps - length (shape t)) in
    let out := map (fun dr => fst dr * snd dr) (combine rs reps') in
    Ok (mkT (rev out)
          (tabulate (numel out) (fun k => at_ t (rep_offset rs reps' k)))).

(** *** cat of two tensors along [dim] *)

Definition chunk (l : list R) (m i : nat) : list R :=
  firstn m (skipn (i * m) l).

Definition cat2 (a b : tensor) (dim : nat) : result tensor :=
  match nth_error (shape a) dim, nth_error (shape b) dim with
  | Some da, Some db =>
      let pre := firstn dim (shape a) in
      let post := skipn (S dim) (shape a) in
      if list_eq_dec Nat.eq_dec pre (firstn dim (shape b)) then
        if list_eq_dec Nat.eq_dec post (skipn (S dim) (shape b)) then
          let inner := numel post in
          Ok (mkT (pre ++ (da + db) :: post)
                (flat_map (fun o => chunk (data a) (da * inner) o
                                    ++ chunk (data b) (db * inner) o)
                   (seq 0 (numel pre))))
        else Raise RuntimeError
      else Raise RuntimeError
  | _, _ => Raise IndexError
  end.

(** *** linear: [x @ w^T], [w] of shape [out, in] *)

Definition linear (x w : tensor) : result tensor :=
  match shape w, rev (shape x) with
  | [o; i], i' :: rest =>
      if i' =? i then
        Ok (mkT (rev (o :: rest))
              (tabulate (numel rest * o) (fun k =>
                 sum (tabulate i (fun j =>
                   (at_ x ((k / o) * i + j) * at_ w ((k mod o) * i + j))%R)))))
      else Raise RuntimeError
  | _, _ => Raise RuntimeError
  end.

(** *** interpolate(scale_factor=2, mode='nearest')

    The first two dimensions are batch and channel; each of the one to
    three spatial dimensions is doubled by writing every slice twice. *)

Fixpoint nearest2 (spatial : list nat) (l : list R) : list R :=
  match spatial with
  | [] => l
  | d :: rest =>
      flat_map (fun i => let u := nearest2 rest (chunk l (numel rest) i) in
                         u ++ u)
        (seq 0 d)
  end.

Definition interpolate_nearest2 (t : tensor) : result tensor :=
  match shape t with
  | n :: c :: spatial =>
      if (1 <=? length spatial) && (length spatial <=? 3) then
        Ok (mkT (n :: c :: map (fun d => 2 * d) spatial)
              (flat_map (fun i => nearest2 spatial
                                    (chunk (data t) (numel spatial) i))
                 (seq 0 (n * c))))
      else Raise RuntimeError
  | _ => Raise RuntimeError
  end.

End Torch.

(** ** Python integers *)

(** [a % b]: the remainder has the sign of the divisor, as [Z.modulo]. *)
Definition py_mod (a b : Z) : result Z :=
  if Z.eqb b 0 then Raise ZeroDivisionError else Ok (Z.modulo a b).

(** [int(a / b)]: true division, then truncation towards zero.  The
    quotient [a / b] is the binary64 number nearest to the exact one, so
    the result is [Z.quot a b] whenever [b] divides [a] with a quotient
    below 2^53 in magnitude, which covers every tensor size. *)
Definition py_int_truediv (a b : Z) : result Z :=
  if Z.eqb b 0 then Raise ZeroDivisionError else Ok (Z.quot a b).

(** ** Equalized learning rate *)

(** The values [kaiming_normal_] writes into a weight: the [k]-th sample
    lands at flat index [k]. *)
Definition sample : Type := nat -> R.

Definition zeros (n : nat) : Torch.tensor := Torch.mkT [n] (List.repeat 0%R n).

Module EqualizedConv2d.
Import Torch.

Record t : Type := mk {
  bias : bool;
  weight : tensor;                 (* self.conv.weight *)
  stride : nat * nat;
  padding : nat * nat;
  bias_param : option tensor;
  scale : R
}.

Definition init (in_features out_features : nat) (kernel_size : nat * nat)
    (stride padding : nat * nat) (bias : bool) (normal : sample) : t :=
  let shp := [out_features; in_features; fst kernel_size; snd kernel_size] in
  let w := mkT shp (tabulate (numel shp) normal) in
  let bias_param := if bias then Some (zeros out_features) else None in
  let scale := sqrt (mean_all (pow2 w)) in
  mk bias (div_scalar w scale) stride padding bias_param scale.

Section Forward.
(** [F.conv2d] without bias: weight, stride, padding, input. *)
Variable conv2d : tensor -> nat * nat -> nat * nat -> tensor -> result tensor.

Definition forward (self : t) (x : tensor) : result tensor :=
  let x := mul_scalar x (scale self) in
  x <- conv2d (weight self) (stride self) (padding self) x ;;
  if bias self then
    match bias_param self with
    | None => Raise AttributeError
    | Some b =>
        b <- reshape b [1; -1; 1; 1]%Z ;;
        b <- expand_as b x ;;
        add x b
    end
  else Ok x.
End Forward.

End EqualizedConv2d.

Module EqualizedDeconv2d.
Import Torch.

Record t : Type := mk {
  bias : bool;
  weight : tensor;                 (* self.deconv.weight *)
  stride : nat * nat;
  padding : nat * nat;
  bias_param : option tensor;
  scale : R
}.

Definition init (in_features out_features : nat) (kernel_size : nat * nat)
    (stride padding : nat * nat) (bias : bool) (normal : sample) : t :=
  let shp := [in_features; out_features; fst kernel_size; snd kernel_size] in
  let w := mkT shp (tabulate (numel shp) normal) in
  let bias_param := if bias then Some (zeros out_features) else None in
  let scale := sqrt (mean_all (pow2 w)) in
  mk bias (div_scalar w scale) stride padding bias_param scale.

Section Forward.
(** [F.conv_transpose2d] without bias. *)
Variable conv_transpose2d :
  tensor -> nat * nat -> nat * nat -> tensor -> result tensor.

Definition forward (self : t) (x : tensor) : result tensor :=
  let x := mul_scalar x (scale self) in
  x <- conv_transpose2d (weight self) (stride self) (padding self) x ;;
  if bias self then
    match bias_param self with
    | None => Raise AttributeError
    | Some b =>
        b <- reshape b [1; -1; 1; 1]%Z ;;
        b <- expand_as b x ;;
        add x b
    end
  else Ok x.
End Forward.

End EqualizedDeconv2d.

Module EqualizedLinear.
Import Torch.

Record t : Type := mk {
  bias : bool;
  weight : tensor;                 (* self.linear.weight *)
  bias_param : option tensor;
  scale : R
}.

Definition init (in_features out_features : nat) (bias : bool)
    (normal : sample) : t :=
  let shp := [out_features; in_features] in
  let w := mkT shp (tabulate (numel shp) normal) in
  let bias_param := if bias then Some (zeros out_features) else None in
  let scale := sqrt (mean_all (pow2 w)) in
  mk bias (div_scalar w scale) bias_param scale.

Definition forward (self : t) (x : tensor) : result tensor :=
  let x := mul_scalar x (scale self) in
  n <- size x 0 ;;
  x <- reshape x [n; -1]%Z ;;
  x <- linear x (weight self) ;;
  if bias self then
    match bias_param self with
    | None => Raise AttributeError
    | Some b =>
        b <- reshape b [1; -1]%Z ;;
        b <- expand_as b x ;;
        add x b
    end
  else Ok x.

End EqualizedLinear.


(** The three equalized layers side by side: how each is constructed,
    the weight [kaiming_normal_] has just filled, and the attributes they
    share. *)
Inductive equalized_layer : Type :=
| Conv2d (l : EqualizedConv2d.t)
| Deconv2d (l : EqualizedDeconv2d.t)
| Linear (l : EqualizedLinear.t).

Inductive constructor_call : Type :=
| NewConv2d (in_features out_features : nat) (kernel_size : nat * nat)
    (stride padding : nat * nat) (bias : bool)
| NewDeconv2d (in_features out_features : nat) (kernel_size : nat * nat)
    (stride padding : nat * nat) (bias : bool)
| NewLinear (in_features out_features : nat) (bias : bool).

Definition construct (c : constructor_call) (normal : sample)
  : equalized_layer :=
  match c with
  | NewConv2d i o k s p b => Conv2d (EqualizedConv2d.init i o k s p b normal)
  | NewDeconv2d i o k s p b =>
      Deconv2d (EqualizedDeconv2d.init i o k s p b normal)
  | NewLinear i o b => Linear (EqualizedLinear.init i o b normal)
  end.

(** The weight as [kaiming_normal_] leaves it, before line 18 (35, 52). *)
Definition fresh_weight (c : constructor_call) (normal : sample)
  : Torch.tensor :=
  let shp :=
    match c with
    | NewConv2d i o k _ _ _ => [o; i; fst k; snd k]
    | NewDeconv2d i o k _ _ _ => [i; o; fst k; snd k]
    | NewLinear i o _ => [o; i]
    end in
  Torch.mkT shp (Torch.tabulate (Torch.numel shp) normal).

Definition scale_of (l : equalized_layer) : R :=
  match l with
  | Conv2d l => EqualizedConv2d.scale l
  | Deconv2d l => EqualizedDeconv2d.scale l
  | Linear l => EqualizedLinear.scale l
  end.

Definition weight_of (l : equalized_layer) : Torch.tensor :=
  match l with
  | Conv2d l => EqualizedConv2d.weight l
  | Deconv2d l => EqualizedDeconv2d.weight l
  | Linear l => EqualizedLinear.weight l
  end.

(** What happens to a layer after its construction: a forward pass, which
    assigns no attribute, or a step of the external optimizer, which
    writes the storage of the registered parameters (the weight and the
    bias vector) and nothing else. *)
Inductive later_op : Type :=
| Forward (x : Torch.tensor)
| Optimize (w : list R) (b : list R).

Definition set_data (t : Torch.tensor) (l : list R) : Torch.tensor :=
  Torch.mkT (Torch.shape t) l.

Definition step (l : equalized_layer) (o : later_op) : equalized_layer :=
  match o with
  | Forward _ => l
  | Optimize w b =>
      match l with
      | Conv2d l =>
          Conv2d (EqualizedConv2d.mk (EqualizedConv2d.bias l)
                    (set_data (EqualizedConv2d.weight l) w)
                    (EqualizedConv2d.stride l) (EqualizedConv2d.padding l)
                    (option_map (fun t => set_data t b)
                       (EqualizedConv2d.bias_param l))
                    (EqualizedConv2d.scale l))
      | Deconv2d l =>
          Deconv2d (EqualizedDeconv2d.mk (EqualizedDeconv2d.bias l)
                      (set_data (EqualizedDeconv2d.weight l) w)
                      (EqualizedDeconv2d.stride l)
                      (EqualizedDeconv2d.padding l)
                      (option_map (fun t => set_data t b)
                         (EqualizedDeconv2d.bias_param l))
                      (EqualizedDeconv2d.scale l))
      | Linear l =>
          Linear (EqualizedLinear.mk (EqualizedLinear.bias l)
                    (set_data (EqualizedLinear.weight l) w)
                    (option_map (fun t => set_data t b)
                       (EqualizedLinear.bias_param l))
                    (EqualizedLinear.scale l))
      end
  end.

Definition run (l : equalized_layer) (ops : list later_op) : equalized_layer :=
  fold_left step ops l.

(** ** Minibatch standard deviation *)

Module MinibatchStddev.
Import Torch.

Record t : Type := mk { group_size : Z }.

(** [__init__(self, group_size=4)] *)
Definition init (group_size : Z) : t := mk group_size.
Definition init_default : t := init 4%Z.

(** Line 69: the group size [G] for a batch of [n] samples. *)
Definition G (self : t) (n : Z) : result Z :=
  r <- py_mod n (group_size self) ;;
  Ok (if Z.eqb r 0 then Z.min (group_size self) n else n).

(** Line 70: the number of groups [M]. *)
Definition M (n G : Z) : result Z := py_int_truediv n G.

Definition forward (self : t) (x : tensor) : result tensor :=
  n <- size x 0 ;;
  G <- G self n ;;
  M <- M n G ;;
  c <- size x 1 ;;
  h <- size x 2 ;;
  w <- size x 3 ;;
  y <- reshape x [G; M; c; h; w] ;;
  m <- mean_dim y 0 true ;;
  y <- sub y m ;;
  y <- mean_dim (pow2 y) 0 false ;;
  let y := sqrt_t (add_scalar y 1e-8) in
  y <- reshape y [M; -1]%Z ;;
  y <- mean_dim y 1 false ;;
  y <- reshape y [M; 1; 1; 1]%Z ;;
  y <- repeat_ y [G; 1%Z; h; w] ;;
  cat2 x y 1.

End MinibatchStddev.

(** ** Pixelwise feature vector normalization *)

Module PixelwiseNorm.
Import Torch.

Definition forward (x : tensor) : result tensor :=
  y <- mean_dim (pow2 x) 1 true ;;
  let y := add_scalar y 1e-8 in
  div x (sqrt_t y).

End PixelwiseNorm.

(** ** Fading in the new layers *)

Module ConcatTable.
Import Torch.

Record t : Type := mk {
  layer1 : tensor -> result tensor;
  layer2 : tensor -> result tensor
}.

Definition forward (self : t) (x : tensor) : result (list tensor) :=
  a <- layer1 self x ;;
  b <- layer2 self x ;;
  Ok [a; b].

End ConcatTable.

Module Fadein.
Import PyFloat Torch.

Record t : Type := mk { alpha : float }.

(** [__init__(self, alpha=0.)] *)
Definition init (alpha : float) : t := mk alpha.
Definition init_default : t := init zero.

(** [update_alpha]: the literal [0] in [max(0, ...)] is a Python [int];
    when [max] returns it, [alpha] is the integer 0, which behaves in
    every later float operation as [+0.0]. *)
Definition update_alpha (self : t) (delta : float) : t :=
  let self := mk (PyFloat.add (alpha self) delta) in
  mk (py_max zero (py_min (alpha self) one)).

Definition get_alpha (self : t) : float := alpha self.

(** [x[i]] on a Python list. *)
Definition index (x : list tensor) (i : nat) : result tensor :=
  match nth_error x i with
  | Some v => Ok v
  | None => Raise IndexError
  end.

Definition forward (self : t) (x : list tensor) : result tensor :=
  old <- index x 0 ;;
  let a := mul_scalar old (to_R (PyFloat.sub one (alpha self))) in
  new <- index x 1 ;;
  let b := mul_scalar new (to_R (alpha self)) in
  Torch.add a b.

(** [0 <= a <= 1] as Python evaluates it. *)
Definition in_unit (a : float) : bool := leb zero a && leb a one.

End Fadein.

(** ** Nearest-neighbor upsample *)

Module Upsample.
Import Torch.

Definition forward (x : tensor) : result tensor := interpolate_nearest2 x.

End Upsample.

(** ** The minibatch statistic, index by index

    The batch [x] of [g * m] samples of [Q] features each is read as [g]
    members of each of [m] groups: member [i] of the group of feature [j]
    (a flat index below [P = m * Q] carrying the group) sits at
    [i * P + j]. *)

Module Stats.
Import Torch.

Definition group_mean (x : tensor) (g P j : nat) : R :=
  mean (tabulate g (fun i => at_ x (i * P + j))).

Definition group_var (x : tensor) (g P j : nat) : R :=
  mean (tabulate g (fun i => ((at_ x (i * P + j) - group_mean x g P j) ^ 2)%R)).

(** The statistic of group [q]: the standard deviation averaged over all
    features and pixels. *)
Definition group_std (x : tensor) (g m Q q : nat) : R :=
  mean (tabulate Q (fun j => sqrt (group_var x g (m * Q) (q * Q + j) + 1e-8))).

(** The storage of the extra channel, of shape [m * g, 1, H, W]: sample
    [n] belongs to group [n mod m]. *)
Definition stat_channel (x : tensor) (g m C H W : nat) : tensor :=
  mkT [m * g; 1; H; W]
    (tabulate (numel [m * g; 1; H; W]) (fun k =>
       group_std x g m (numel [C; H; W]) ((k / numel [H; W]) mod m))).

End Stats.

(** ** Sample inputs *)

(** Four identical 1x1 feature maps. *)
Definition four_zeros : Torch.tensor :=
  Torch.mkT [4; 1; 1; 1] [0; 0; 0; 0]%R.

(** Batches of five, of one and of no 1x1 feature map. *)
Definition five_maps : Torch.tensor :=
  Torch.mkT [5; 1; 1; 1] [1; 2; 3; 4; 5]%R.
Definition one_map : Torch.tensor := Torch.mkT [1; 1; 1; 1] [5%R].
Definition no_map : Torch.tensor := Torch.mkT [0; 1; 1; 1] [].

(** A linear layer of two inputs and one output, and a batch of one. *)
Definition small_linear : EqualizedLinear.t :=
  EqualizedLinear.mk true (Torch.mkT [1; 2] [1; 2]%R)
    (Some (Torch.mkT [1] [7%R])) 3%R.

(** The outputs of an old and of a new branch. *)
Definition old_branch : Torch.tensor := Torch.mkT [2] [1; 2]%R.


(** ** Further sample inputs *)

(** A stand-in for the convolution primitive: the 1x1 convolution with
    unit weight, which returns its input. *)
Definition pointwise_conv (w : Torch.tensor) (stride padding : nat * nat)
    (x : Torch.tensor) : result Torch.tensor := Ok x.

Definition small_conv : EqualizedConv2d.t :=
  EqualizedConv2d.mk true (Torch.mkT [1; 1; 1; 1] [1%R]) (1, 1) (0, 0)
    (Some (Torch.mkT [1] [7%R])) 2%R.

Definition small_deconv : EqualizedDeconv2d.t :=
  EqualizedDeconv2d.mk true (Torch.mkT [1; 1; 1; 1] [1%R]) (1, 1) (0, 0)
    (Some (Torch.mkT [1] [7%R])) 2%R.

(** One 2x2 feature map. *)
Definition two_by_two : Torch.tensor :=
  Torch.mkT [1; 1; 2; 2] [1; 2; 3; 4]%R.


(** * Properties *)

Lemma Ok_inj {A : Type} (a b : A) : Ok a = Ok b -> a = b.
Proof. intros H. now injection H. Qed.

(** ** The definitions on small inputs *)

Example groups_of_eight :
  MinibatchStddev.G (MinibatchStddev.init 4) 8 = Ok 4%Z
  /\ MinibatchStddev.M 8 4 = Ok 2%Z.
Proof. split; reflexivity. Qed.

Example groups_of_two :
  MinibatchStddev.G (MinibatchStddev.init 4) 2 = Ok 2%Z
  /\ MinibatchStddev.M 2 2 = Ok 1%Z.
Proof. split; reflexivity. Qed.

Example group_size_zero :
  MinibatchStddev.G (MinibatchStddev.init 0) 8 = Raise ZeroDivisionError.
Proof. reflexivity. Qed.

Example view_of_empty_batch :
  Torch.reshape (Torch.mkT [0; 3] []) [0; -1]%Z = Raise RuntimeError.
Proof. reflexivity. Qed.

Example linear_on_empty_batch :
  EqualizedLinear.forward small_linear (Torch.mkT [0; 2] [])
  = Raise RuntimeError.
Proof. reflexivity. Qed.

Example cat_of_two_channels :
  Torch.cat2 (Torch.mkT [1; 1; 1; 2] [1; 2]%R) (Torch.mkT [1; 1; 1; 2] [3; 4]%R) 1
  = Ok (Torch.mkT [1; 2; 1; 2] [1; 2; 3; 4]%R).
Proof. reflexivity. Qed.

Example repeat_of_two_groups :
  Torch.repeat_ (Torch.mkT [2; 1; 1; 1] [7; 8]%R) [2; 1; 1; 2]%Z
  = Ok (Torch.mkT [4; 1; 1; 2] [7; 7; 8; 8; 7; 7; 8; 8]%R).
Proof. reflexivity. Qed.

Example upsample_of_a_row :
  Upsample.forward (Torch.mkT [1; 1; 1; 2] [1; 2]%R)
  = Ok (Torch.mkT [1; 1; 2; 4] [1; 1; 2; 2; 1; 1; 2; 2]%R).
Proof. reflexivity. Qed.

Example fadein_on_a_single_tensor :
  Fadein.forward Fadein.init_default [old_branch] = Raise IndexError.
Proof. reflexivity. Qed.

(** ** Python floats and the fade-in coefficient *)

Lemma one_bits : PyFloat.one = S754_finite false 4503599627370496 (-52).
Proof. reflexivity. Qed.

Example lit_09_bits :
  PyFloat.lit 9 10 = S754_finite false 8106479329266893 (-53).
Proof. vm_compute. reflexivity. Qed.

Example lit_03_bits :
  PyFloat.lit 3 10 = S754_finite false 5404319552844595 (-54).
Proof. vm_compute. reflexivity. Qed.

Example lit_02_bits :
  PyFloat.lit 2 10 = S754_finite false 7205759403792794 (-55).
Proof. vm_compute. reflexivity. Qed.

(** [Pos.compare_cont] read backwards. *)
Lemma compare_cont_swap (p q : positive) :
  Pos.compare_cont Eq q p = CompOpp (Pos.compare_cont Eq p q).
Proof. exact (Pos.compare_antisym p q). Qed.

(** Whatever the sum was (NaN and the infinities included), clamping it
    with Python's [min] and [max] leaves a number of [[0, 1]]. *)
Lemma clamp_in_unit (r : PyFloat.float) :
  Fadein.in_unit (PyFloat.py_max PyFloat.zero (PyFloat.py_min r PyFloat.one))
  = true.
Proof.
  unfold Fadein.in_unit, PyFloat.py_max, PyFloat.py_min, PyFloat.ltb,
    PyFloat.leb, PyFloat.zero.
  rewrite one_bits.
  destruct r as [s | s | | s m e]; try (destruct s); try reflexivity.
  unfold SFltb, SFleb, SFcompare.
  destruct (Z.compare (-52) e) eqn:He;
    [ destruct (Pos.compare_cont Eq 4503599627370496 m) eqn:Hm | | ];
    cbv iota beta; try reflexivity;
    rewrite (Z.compare_antisym (-52) e), He; cbv iota beta delta [CompOpp];
    try rewrite (compare_cont_swap 4503599627370496 m), Hm; reflexivity.
Qed.

(** C5 (as amended).  The constructor stores its argument as it is, so
    [alpha] lies within [[0, 1]] at construction exactly when the argument
    does, as the default [0.] does.  After every [update_alpha], whatever
    [alpha] was before and whatever [delta] is (NaN and the infinities
    included), [alpha] lies within [[0, 1]]; an update is a total
    function and raises nothing.  Advancing by 0.3 from 0.9 gives exactly
    1.0, and advancing by -0.5 from 0.2 gives exactly 0. *)
Theorem Fadein_alpha_clamped :
  Fadein.in_unit (Fadein.get_alpha Fadein.init_default) = true
  /\ (forall a : PyFloat.float,
        Fadein.in_unit (Fadein.get_alpha (Fadein.init a)) = Fadein.in_unit a)
  /\ (forall (self : Fadein.t) (delta : PyFloat.float),
        Fadein.in_unit (Fadein.get_alpha (Fadein.update_alpha self delta))
        = true)
  /\ Fadein.update_alpha (Fadein.mk (PyFloat.lit 9 10)) (PyFloat.lit 3 10)
     = Fadein.mk PyFloat.one
  /\ Fadein.update_alpha (Fadein.mk (PyFloat.lit 2 10))
       (PyFloat.neg (PyFloat.lit 5 10))
     = Fadein.mk PyFloat.zero.
Proof.
  split; [reflexivity | split; [reflexivity |]].
  split; [| split; vm_compute; reflexivity].
  intros self delta. unfold Fadein.update_alpha, Fadein.get_alpha.
  cbn [Fadein.alpha]. apply clamp_in_unit.
Qed.

(** C5 as stated fails at construction: [Fadein(alpha=2.0)] stores 2.0. *)
Lemma Fadein_init_not_clamped :
  Fadein.in_unit (Fadein.get_alpha (Fadein.init (PyFloat.of_Z 2))) = false.
Proof. vm_compute. reflexivity. Qed.

(** ** Equalized layers: the scale fixed at construction *)

Section Sums.
Import Torch.
Local Open Scope R_scope.

Lemma sum_map_div (f : R -> R) (c : R) (l : list R) :
  sum (map (fun v => f v / c) l) = sum (map f l) / c.
Proof.
  induction l as [| v l IH]; simpl.
  - unfold Rdiv. ring.
  - rewrite IH. unfold Rdiv. ring.
Qed.

Lemma mean_positive_length (l : list R) : 0 < mean l -> INR (length l) <> 0.
Proof.
  unfold mean. intros H E. rewrite E in H.
  unfold Rdiv in H. rewrite Rinv_0, Rmult_0_r in H. lra.
Qed.

(** Lines 17 and 18: dividing every entry by the root mean square
    leaves entries of mean square 1. *)
Lemma unit_mean_square (l : list R) :
  0 < mean (map (fun v => v ^ 2) l) ->
  mean (map (fun v => v ^ 2)
          (map (fun v => v / sqrt (mean (map (fun v => v ^ 2) l))) l)) = 1.
Proof.
  set (m := mean (map (fun v => v ^ 2) l)). intros Hm.
  assert (Hn : INR (length l) <> 0).
  { apply mean_positive_length in Hm. now rewrite length_map in Hm. }
  assert (Hs : sqrt m ^ 2 = m) by (apply pow2_sqrt; lra).
  assert (Hs0 : sqrt m <> 0).
  { intros E. rewrite E in Hs. lra. }
  rewrite map_map.
  rewrite (map_ext _ (fun v => v ^ 2 / m)).
  2:{ intros v. rewrite <- Hs at 2. field. exact Hs0. }
  unfold mean at 1. rewrite sum_map_div, length_map.
  replace (sum (map (fun v => v ^ 2) l)) with (m * INR (length l)).
  - field. split; [lra | exact Hn].
  - unfold m, mean. rewrite length_map. field. exact Hn.
Qed.

End Sums.

Lemma scale_of_step (l : equalized_layer) (o : later_op) :
  scale_of (step l o) = scale_of l.
Proof. destruct o; [reflexivity | destruct l; reflexivity]. Qed.

Lemma scale_of_run (ops : list later_op) :
  forall l, scale_of (run l ops) = scale_of l.
Proof.
  unfold run. induction ops as [| o ops IH]; intros l; simpl.
  - reflexivity.
  - rewrite IH. apply scale_of_step.
Qed.

(** C1.  For each of the three equalized layers, construction sets
    [scale] to the root mean square of the freshly initialised weight and
    stores that weight divided by [scale], so the stored weight has mean
    square 1; no later forward pass or optimizer step changes [scale]. *)
Theorem equalized_scale_at_construction
    (c : constructor_call) (normal : sample) :
  (0 < Torch.mean_all (Torch.pow2 (fresh_weight c normal)))%R ->
  scale_of (construct c normal)
  = sqrt (Torch.mean_all (Torch.pow2 (fresh_weight c normal)))
  /\ weight_of (construct c normal)
     = Torch.div_scalar (fresh_weight c normal) (scale_of (construct c normal))
  /\ Torch.mean_all (Torch.pow2 (weight_of (construct c normal))) = 1%R
  /\ forall ops : list later_op,
       scale_of (run (construct c normal) ops) = scale_of (construct c normal).
Proof.
  intros H.
  split; [ | split; [ | split ]].
  - destruct c; reflexivity.
  - destruct c; reflexivity.
  - destruct c; apply (unit_mean_square _ H).
  - intros ops. apply scale_of_run.
Qed.

Lemma equalized_scale_at_construction_witness :
  Torch.mean_all
    (Torch.pow2 (weight_of (construct (NewLinear 1 1 true) (fun _ => 2%R))))
  = 1%R.
Proof.
  apply (equalized_scale_at_construction (NewLinear 1 1 true) (fun _ => 2%R)).
  unfold Torch.mean_all, Torch.mean. simpl. lra.
Defined.

(** ** Facts about the tensor runtime *)

Section Indexing.
Import Torch.

(** A flat index in Horner form, read back. *)
Lemma horner_div (q b r : nat) : r < b -> (q * b + r) / b = q.
Proof.
  intros H. symmetry. apply (Nat.div_unique _ _ _ r); lia.
Qed.

Lemma horner_mod (q b r : nat) : r < b -> (q * b + r) mod b = r.
Proof.
  intros H. symmetry. apply (Nat.mod_unique _ _ q); lia.
Qed.

Lemma horner_bound (q b r n : nat) : q < n -> r < b -> q * b + r < n * b.
Proof. nia. Qed.

Lemma length_tabulate {A : Type} (n : nat) (f : nat -> A) :
  length (tabulate n f) = n.
Proof. unfold tabulate. now rewrite length_map, length_seq. Qed.

Lemma nth_tabulate {A : Type} (n : nat) (f : nat -> A) (k : nat) (d : A) :
  k < n -> nth k (tabulate n f) d = f k.
Proof.
  intros H. unfold tabulate.
  rewrite (nth_indep _ d (f 0)) by now rewrite length_map, length_seq.
  rewrite (map_nth f), seq_nth by exact H. reflexivity.
Qed.

Lemma tabulate_ext {A : Type} (n : nat) (f g : nat -> A) :
  (forall k, k < n -> f k = g k) -> tabulate n f = tabulate n g.
Proof.
  intros H. unfold tabulate. apply map_ext_in.
  intros k Hk. apply in_seq in Hk. apply H. lia.
Qed.

Lemma map_tabulate {A B : Type} (h : A -> B) (n : nat) (f : nat -> A) :
  map h (tabulate n f) = tabulate n (fun k => h (f k)).
Proof. unfold tabulate. now rewrite map_map. Qed.

Lemma at_tabulate (s : list nat) (n : nat) (f : nat -> R) (k : nat) :
  k < n -> at_ (mkT s (tabulate n f)) k = f k.
Proof. intros H. unfold at_. cbn [data]. now apply nth_tabulate. Qed.

Lemma numel_app (l1 l2 : list nat) : numel (l1 ++ l2) = numel l1 * numel l2.
Proof.
  unfold numel. induction l1 as [| a l1 IH]; simpl.
  - lia.
  - rewrite IH. ring.
Qed.

Lemma numel_cons (a : nat) (l : list nat) : numel (a :: l) = a * numel l.
Proof. reflexivity. Qed.

Lemma numel_rev (l : list nat) : numel (rev l) = numel l.
Proof.
  induction l as [| a l IH]; [reflexivity |].
  cbn [rev]. rewrite numel_app, IH, !numel_cons. cbn [numel fold_right]. ring.
Qed.

Local Open Scope R_scope.

Lemma sum_tabulate_const (n : nat) (c : R) :
  sum (tabulate n (fun _ => c)) = INR n * c.
Proof.
  unfold tabulate. generalize 0%nat.
  induction n as [| n IH]; intros s.
  - simpl. ring.
  - rewrite S_INR. cbn [seq map sum fold_right]. fold (sum (map (fun _ => c) (seq (S s) n))).
    rewrite IH. ring.
Qed.

Lemma mean_tabulate_const (n : nat) (c : R) :
  (0 < n)%nat -> mean (tabulate n (fun _ => c)) = c.
Proof.
  intros H. unfold mean. rewrite sum_tabulate_const, length_tabulate.
  field. apply not_0_INR. lia.
Qed.

Lemma mean_tabulate_ext (n : nat) (f g : nat -> R) :
  (forall k, (k < n)%nat -> f k = g k) ->
  mean (tabulate n f) = mean (tabulate n g).
Proof. intros H. now rewrite (tabulate_ext n f g H). Qed.

End Indexing.

Section Reshape.
Import Torch.

Lemma of_nat_not_below (a : nat) (z : Z) :
  (z <= 0)%Z -> Z.ltb (Z.of_nat a) z = false.
Proof. intros H. apply Z.ltb_ge. lia. Qed.

Lemma of_nat_not_minus_one (a : nat) : Z.eqb (Z.of_nat a) (-1) = false.
Proof. apply Z.eqb_neq. lia. Qed.

Lemma product_of_nat (ds : list nat) :
  fold_right Z.mul 1%Z (map Z.of_nat ds) = Z.of_nat (numel ds).
Proof.
  unfold numel. induction ds as [| d ds IH]; simpl fold_right; [reflexivity |].
  rewrite IH. lia.
Qed.

Lemma no_size_below_minus_one (ds : list nat) :
  existsb (fun d => Z.ltb d (-1)) (map Z.of_nat ds) = false.
Proof.
  induction ds as [| d ds IH]; [reflexivity |].
  cbn [map existsb]. rewrite IH, of_nat_not_below by lia. reflexivity.
Qed.

Lemma no_size_to_infer (ds : list nat) :
  filter (fun d => negb (Z.eqb d (-1))) (map Z.of_nat ds) = map Z.of_nat ds.
Proof.
  induction ds as [| d ds IH]; [reflexivity |].
  cbn [map filter]. rewrite IH, of_nat_not_minus_one. reflexivity.
Qed.

(** Sizes that are all given: the product must match. *)
Lemma infer_size_given (ds : list nat) (n : nat) :
  infer_size (map Z.of_nat ds) n
  = if numel ds =? n then Ok ds else Raise RuntimeError.
Proof.
  unfold infer_size.
  rewrite no_size_below_minus_one, no_size_to_infer, Nat.sub_diag,
    product_of_nat, Nat2Z.id.
  rewrite map_map, (map_ext _ (fun d => d)), map_id by (intros; apply Nat2Z.id).
  reflexivity.
Qed.

(** [view(a, -1)]. *)
Lemma infer_size_rows (a n : nat) :
  infer_size [Z.of_nat a; (-1)%Z] n
  = if (0 <? a) && (n mod a =? 0) then Ok [a; n / a] else Raise RuntimeError.
Proof.
  unfold infer_size. cbn [existsb filter map].
  rewrite of_nat_not_below by lia. rewrite of_nat_not_minus_one.
  cbn [orb negb Z.ltb Z.compare Z.eqb Pos.eqb Pos.compare Pos.compare_cont
       length Nat.sub fold_right].
  rewrite Z.mul_1_r, !Nat2Z.id. reflexivity.
Qed.

Lemma reshape_given (t : tensor) (ds : list nat) :
  numel ds = numel (shape t) ->
  reshape t (map Z.of_nat ds) = Ok (mkT ds (data t)).
Proof.
  intros H. unfold reshape. rewrite infer_size_given.
  apply Nat.eqb_eq in H. rewrite H. reflexivity.
Qed.

Lemma reshape_rows (t : tensor) (a b : nat) :
  0 < a -> numel (shape t) = a * b ->
  reshape t [Z.of_nat a; (-1)%Z] = Ok (mkT [a; b] (data t)).
Proof.
  intros Ha H. unfold reshape. rewrite infer_size_rows, H.
  replace (0 <? a) with true by (symmetry; apply Nat.ltb_lt; exact Ha).
  rewrite Nat.mul_comm, Nat.Div0.mod_mul, Nat.div_mul by lia.
  reflexivity.
Qed.

(** *** Mean along the first and along the second dimension *)

Lemma mean_dim_first (t : tensor) (g : nat) (rest : list nat) (keep : bool) :
  shape t = g :: rest ->
  mean_dim t 0 keep
  = Ok (mkT ((if keep then [1] else []) ++ rest)
          (tabulate (numel rest) (fun k =>
             mean (tabulate g (fun j => at_ t (j * numel rest + k)))))).
Proof.
  intros H. unfold mean_dim. rewrite H. cbn [nth_error firstn skipn app].
  f_equal. f_equal.
  change (numel []) with 1. rewrite Nat.mul_1_l.
  apply tabulate_ext. intros k Hk. apply mean_tabulate_ext. intros j _.
  rewrite Nat.div_small, Nat.mod_small by exact Hk. reflexivity.
Qed.

Lemma mean_dim_second (t : tensor) (n d : nat) (post : list nat) (keep : bool) :
  shape t = n :: d :: post ->
  mean_dim t 1 keep
  = Ok (mkT (n :: (if keep then [1] else []) ++ post)
          (tabulate (n * numel post) (fun k =>
             mean (tabulate d (fun j =>
               at_ t ((k / numel post * d + j) * numel post
                      + k mod numel post)))))).
Proof.
  intros H. unfold mean_dim. rewrite H. cbn [nth_error firstn skipn app].
  rewrite numel_cons. change (numel []) with 1. rewrite Nat.mul_1_r.
  reflexivity.
Qed.

End Reshape.

Section Broadcast.
Import Torch.

Lemma unit_or_mod (a k : nat) : (if a =? 1 then 0 else k mod a) = k mod a.
Proof.
  destruct (Nat.eqb_spec a 1) as [-> | _]; [now rewrite Nat.mod_1_r | reflexivity].
Qed.

Lemma bc_shape_same (rs : list nat) : bc_shape rs rs = Some rs.
Proof.
  induction rs as [| a rs IH]; [reflexivity |].
  cbn [bc_shape]. rewrite IH, Nat.eqb_refl. reflexivity.
Qed.

(** One operand has size 1 where the other has size [d]. *)
Lemma bc_shape_unit (rs1 rs2 : list nat) (d : nat) :
  bc_shape (rs1 ++ d :: rs2) (rs1 ++ 1 :: rs2) = Some (rs1 ++ d :: rs2).
Proof.
  induction rs1 as [| a rs1 IH]; cbn [app bc_shape].
  - rewrite bc_shape_same.
    destruct (Nat.eqb_spec d 1) as [-> | _]; reflexivity.
  - rewrite IH, Nat.eqb_refl. reflexivity.
Qed.

Lemma bc_offset_same (rs : list nat) :
  forall k, bc_offset rs rs k = k mod numel rs.
Proof.
  induction rs as [| a rs IH]; intros k; cbn [bc_offset].
  - change (numel []) with 1. now rewrite Nat.mod_1_r.
  - rewrite unit_or_mod, IH, numel_cons, Nat.Div0.mod_mul_r. reflexivity.
Qed.

Lemma bc_offset_unit (rs1 rs2 : list nat) (d : nat) :
  forall k,
    bc_offset (rs1 ++ d :: rs2) (rs1 ++ 1 :: rs2) k
    = k mod numel rs1 + numel rs1 * ((k / (numel rs1 * d)) mod numel rs2).
Proof.
  induction rs1 as [| a rs1 IH]; intros k; cbn [app bc_offset].
  - rewrite bc_offset_same. change (numel []) with 1.
    rewrite Nat.eqb_refl, Nat.mod_1_r, !Nat.mul_1_l. reflexivity.
  - rewrite unit_or_mod, IH, numel_cons, Nat.Div0.mod_mul_r, Nat.Div0.div_div.
    rewrite <- (Nat.mul_assoc a (numel rs1) d). ring.
Qed.

Lemma bop_same (f : R -> R -> R) (a b : tensor) :
  shape a = shape b ->
  bop f a b
  = Ok (mkT (shape a)
          (tabulate (numel (shape a)) (fun k => f (at_ a k) (at_ b k)))).
Proof.
  intros H. unfold bop. rewrite <- H, bc_shape_same, rev_involutive, numel_rev.
  f_equal. f_equal. apply tabulate_ext. intros k Hk.
  rewrite bc_offset_same, numel_rev, Nat.mod_small by exact Hk. reflexivity.
Qed.

Lemma bop_unit (f : R -> R -> R) (a b : tensor) (pre post : list nat) (d : nat) :
  shape a = pre ++ d :: post ->
  shape b = pre ++ 1 :: post ->
  bop f a b
  = Ok (mkT (shape a)
          (tabulate (numel (shape a)) (fun k =>
             f (at_ a k)
               (at_ b (k mod numel post
                       + numel post * ((k / (numel post * d)) mod numel pre)))))).
Proof.
  intros Ha Hb. unfold bop.
  assert (Ra : rev (shape a) = rev post ++ d :: rev pre).
  { rewrite Ha, rev_app_distr. cbn [rev]. now rewrite <- app_assoc. }
  assert (Rb : rev (shape b) = rev post ++ 1 :: rev pre).
  { rewrite Hb, rev_app_distr. cbn [rev]. now rewrite <- app_assoc. }
  rewrite Ra, Rb, bc_shape_unit, <- Ra, rev_involutive, numel_rev.
  f_equal. f_equal. apply tabulate_ext. intros k Hk.
  rewrite Ra, bc_offset_same, bc_offset_unit, <- Ra, !numel_rev.
  rewrite Nat.mod_small by exact Hk. reflexivity.
Qed.

End Broadcast.

Section Storage.
Import Torch.

Lemma length_chunk (l : list R) (m i : nat) :
  (i + 1) * m <= length l -> length (chunk l m i) = m.
Proof.
  intros H. unfold chunk. rewrite length_firstn, length_skipn. lia.
Qed.

Lemma nth_chunk (l : list R) (m i j : nat) (d : R) :
  j < m -> nth j (chunk l m i) d = nth (i * m + j) l d.
Proof.
  intros H. unfold chunk. rewrite nth_firstn, nth_skipn.
  apply Nat.ltb_lt in H. rewrite H. reflexivity.
Qed.

(** Pieces of one length [m], laid end to end: the element at [k] is
    element [k mod m] of piece [k / m]. *)
Lemma nth_flat_map_fixed {A B : Type} (f : A -> list B) (m : nat) (da : A)
    (d : B) (l : list A) :
  (forall x, In x l -> length (f x) = m) ->
  forall k, k < length l * m ->
    nth k (flat_map f l) d = nth (k mod m) (f (nth (k / m) l da)) d.
Proof.
  induction l as [| x l IH]; intros Hlen k Hk; [cbn in Hk; lia |].
  assert (Hm : 0 < m) by (destruct m; [cbn in Hk |]; lia).
  cbn [flat_map].
  destruct (Nat.lt_ge_cases k m) as [Hlt | Hge].
  - rewrite app_nth1 by (rewrite Hlen by (left; reflexivity); exact Hlt).
    rewrite Nat.div_small, Nat.mod_small by exact Hlt. reflexivity.
  - rewrite app_nth2 by (rewrite Hlen by (left; reflexivity); exact Hge).
    rewrite Hlen by (left; reflexivity).
    rewrite IH.
    + replace k with ((k - m) + 1 * m) at 3 4 by lia.
      rewrite Nat.Div0.mod_add, Nat.div_add by lia.
      rewrite Nat.add_1_r. reflexivity.
    + intros y Hy. apply Hlen. right. exact Hy.
    + cbn [length] in Hk. lia.
Qed.

Lemma length_flat_map_fixed {A B : Type} (f : A -> list B) (m : nat)
    (l : list A) :
  (forall x, In x l -> length (f x) = m) ->
  length (flat_map f l) = length l * m.
Proof.
  induction l as [| x l IH]; intros Hlen; [reflexivity |].
  cbn [flat_map length]. rewrite length_app, Hlen by (left; reflexivity).
  rewrite IH by (intros y Hy; apply Hlen; right; exact Hy). lia.
Qed.

Lemma nth_flat_map_seq {B : Type} (f : nat -> list B) (m n : nat) (d : B) :
  (forall o, o < n -> length (f o) = m) ->
  forall o r, o < n -> r < m ->
    nth (o * m + r) (flat_map f (seq 0 n)) d = nth r (f o) d.
Proof.
  intros Hlen o r Ho Hr.
  rewrite (nth_flat_map_fixed f m 0 d).
  - rewrite horner_div, horner_mod, seq_nth by assumption. reflexivity.
  - intros x Hx. apply in_seq in Hx. apply Hlen. lia.
  - rewrite length_seq. now apply horner_bound.
Qed.

(** *** cat along the channel dimension *)

Lemma cat2_channels (a b : tensor) (n da db : nat) (post : list nat) :
  shape a = n :: da :: post ->
  shape b = n :: db :: post ->
  cat2 a b 1
  = Ok (mkT (n :: (da + db) :: post)
          (flat_map (fun o => chunk (data a) (da * numel post) o
                              ++ chunk (data b) (db * numel post) o)
             (seq 0 n))).
Proof.
  intros Ha Hb. unfold cat2. rewrite Ha, Hb. cbn [nth_error firstn skipn app].
  destruct (list_eq_dec Nat.eq_dec [n] [n]) as [_ | N]; [| now elim N].
  destruct (list_eq_dec Nat.eq_dec post post) as [_ | N]; [| now elim N].
  rewrite numel_cons. change (numel []) with 1. rewrite Nat.mul_1_r.
  reflexivity.
Qed.

Lemma wf_chunk (a : tensor) (n m o : nat) :
  wf a -> numel (shape a) = n * m -> o < n -> length (chunk (data a) m o) = m.
Proof.
  intros Hwf Hn Ho. apply length_chunk. rewrite Hwf, Hn. nia.
Qed.

(** Element [r] of block [o] of a concatenation: from the first operand
    when [r] is below its block length, from the second otherwise. *)
Lemma nth_cat_blocks (a b : tensor) (n ma mb o r : nat) :
  wf a -> wf b ->
  numel (shape a) = n * ma -> numel (shape b) = n * mb ->
  o < n -> r < ma + mb ->
  nth (o * (ma + mb) + r)
    (flat_map (fun o => chunk (data a) ma o ++ chunk (data b) mb o) (seq 0 n))
    0%R
  = if r <? ma then at_ a (o * ma + r) else at_ b (o * mb + (r - ma)).
Proof.
  intros Wa Wb Na Nb Ho Hr.
  rewrite (nth_flat_map_seq _ (ma + mb) n).
  - destruct (Nat.ltb_spec r ma) as [Hlt | Hge].
    + rewrite app_nth1 by (rewrite (wf_chunk a n) by assumption; exact Hlt).
      now apply nth_chunk.
    + rewrite app_nth2 by (rewrite (wf_chunk a n) by assumption; exact Hge).
      rewrite (wf_chunk a n) by assumption.
      apply nth_chunk. lia.
  - intros o' Ho'. rewrite length_app, (wf_chunk a n), (wf_chunk b n) by assumption.
    reflexivity.
  - exact Ho.
  - exact Hr.
Qed.

End Storage.

Section Repeat.
Import Torch.

Lemma mod_mod_mul (k m g : nat) : (k mod (m * g)) mod m = k mod m.
Proof.
  rewrite Nat.Div0.mod_mul_r, (Nat.mul_comm m), Nat.Div0.mod_add.
  apply Nat.Div0.mod_mod.
Qed.

(** [y.repeat(G, 1, H, W)] of a tensor of shape [m, 1, 1, 1]: sample [n]
    of the result carries entry [n mod m] at every pixel. *)
Lemma repeat_groups (t : tensor) (m g H W : nat) :
  shape t = [m; 1; 1; 1] ->
  repeat_ t [Z.of_nat g; 1%Z; Z.of_nat H; Z.of_nat W]
  = Ok (mkT [m * g; 1; H; W]
          (tabulate (numel [m * g; 1; H; W]) (fun k =>
             at_ t ((k / numel [H; W]) mod m)))).
Proof.
  intros Hs. unfold repeat_. rewrite Hs.
  cbn [existsb length map rev app combine fst snd Nat.ltb Nat.leb Nat.sub
       List.repeat orb].
  rewrite !of_nat_not_below by lia.
  change (Z.ltb 1 0) with false. cbn [orb].
  rewrite !Nat2Z.id. change (Z.to_nat 1) with 1.
  cbn [rev app map combine fst snd].
  rewrite !Nat.mul_1_l.
  replace (numel [W; H; 1; m * g]) with (numel [m * g; 1; H; W])
    by (cbn [numel fold_right]; ring).
  f_equal. f_equal. apply tabulate_ext. intros k _. cbn [rep_offset].
  rewrite !Nat.mul_1_l, !Nat.mod_1_r, !Nat.div_1_r, Nat.mul_0_r, Nat.add_0_r.
  rewrite mod_mod_mul, !Nat.Div0.div_div. cbn [numel fold_right].
  rewrite Nat.mul_1_r, (Nat.mul_comm W H). reflexivity.
Qed.

End Repeat.

(** ** Minibatch standard deviation *)

Section Stddev.
Import Torch Stats.

Lemma size_at (x : tensor) (d n : nat) :
  nth_error (shape x) d = Some n -> size x d = Ok (Z.of_nat n).
Proof. intros H. unfold size. now rewrite H. Qed.

Lemma forward_grouped (self : MinibatchStddev.t) (x : tensor)
    (N C H W g m : nat) :
  shape x = [N; C; H; W] ->
  MinibatchStddev.G self (Z.of_nat N) = Ok (Z.of_nat g) ->
  MinibatchStddev.M (Z.of_nat N) (Z.of_nat g) = Ok (Z.of_nat m) ->
  g * m = N -> 0 < m ->
  MinibatchStddev.forward self x
  = Ok (mkT [N; C + 1; H; W]
          (flat_map (fun o =>
                       chunk (data x) (C * numel [H; W]) o
                       ++ chunk (data (stat_channel x g m C H W))
                            (1 * numel [H; W]) o)
             (seq 0 N))).
Proof.
  intros Hs HG HM HN Hm. unfold MinibatchStddev.forward.
  rewrite (size_at x 0 N), (size_at x 1 C), (size_at x 2 H), (size_at x 3 W)
    by (rewrite Hs; reflexivity).
  cbn [bind]. rewrite HG. cbn [bind]. rewrite HM. cbn [bind].
  change [Z.of_nat g; Z.of_nat m; Z.of_nat C; Z.of_nat H; Z.of_nat W]
    with (map Z.of_nat [g; m; C; H; W]).
  rewrite reshape_given
    by (rewrite Hs, <- HN, !numel_cons; ring).
  cbn [bind].
  set (rest := [m; C; H; W]).
  rewrite (mean_dim_first _ g rest true) by reflexivity. cbn [bind app].
  unfold sub. rewrite (bop_unit Rminus _ _ [] rest g) by reflexivity.
  cbn [bind shape].
  unfold pow2, map_t. cbn [shape data]. rewrite map_tabulate.
  rewrite (mean_dim_first _ g rest false) by reflexivity. cbn [bind app].
  unfold sqrt_t, add_scalar, map_t. cbn [shape data]. rewrite !map_tabulate.
  rewrite (reshape_rows _ m (numel [C; H; W])) by (assumption || reflexivity).
  cbn [bind].
  rewrite (mean_dim_second _ m (numel [C; H; W]) [] false) by reflexivity.
  cbn [bind app].
  change [Z.of_nat m; 1%Z; 1%Z; 1%Z] with (map Z.of_nat [m; 1; 1; 1]).
  rewrite reshape_given by (cbn [shape numel fold_right]; ring).
  cbn [bind]. rewrite (repeat_groups _ m g H W) by reflexivity. cbn [bind].
  rewrite (cat2_channels _ _ N C 1 [H; W])
    by (assumption || (cbn [shape]; rewrite <- HN, Nat.mul_comm; reflexivity)).
  f_equal. f_equal.
  match goal with
  | |- flat_map (fun o => _ ++ chunk ?d _ o) _ = _ =>
      replace d with (data (stat_channel x g m C H W)); [reflexivity |]
  end.
  unfold stat_channel. cbn [data]. apply tabulate_ext. intros k _.
  set (Q := numel [C; H; W]). set (q := (k / numel [H; W]) mod m).
  assert (Hq : q < m) by (apply Nat.mod_upper_bound; lia).
  assert (HP : numel rest = m * Q) by reflexivity.
  change (numel []) with 1. rewrite Nat.mul_1_r.
  unfold at_ at 1. cbn [data]. rewrite nth_tabulate by exact Hq.
  unfold group_std. apply mean_tabulate_ext. intros j Hj.
  rewrite Nat.div_1_r, Nat.mul_1_r, Nat.mod_1_r, Nat.add_0_r.
  unfold at_ at 1. cbn [data].
  rewrite nth_tabulate by (rewrite HP; now apply horner_bound).
  f_equal. f_equal. unfold group_var. rewrite HP.
  apply mean_tabulate_ext. intros i Hi.
  assert (Hk : q * Q + j < m * Q) by now apply horner_bound.
  rewrite at_tabulate by (rewrite numel_cons, HP; now apply horner_bound).
  rewrite Nat.mod_1_r, Nat.mul_0_r, Nat.add_0_r, horner_mod by exact Hk.
  rewrite at_tabulate by exact Hk. reflexivity.
Qed.

(** *** Lines 69 and 70 *)

Lemma G_value (self : MinibatchStddev.t) (n Gz : Z) :
  MinibatchStddev.G self n = Ok Gz ->
  MinibatchStddev.group_size self <> 0%Z
  /\ Gz = if Z.eqb (n mod MinibatchStddev.group_size self) 0
          then Z.min (MinibatchStddev.group_size self) n else n.
Proof.
  unfold MinibatchStddev.G, py_mod.
  destruct (Z.eqb_spec (MinibatchStddev.group_size self) 0) as [E | E];
    cbn [bind]; intros H; [discriminate |].
  injection H as <-. now split.
Qed.

Lemma G_defined (self : MinibatchStddev.t) (n : Z) :
  MinibatchStddev.group_size self <> 0%Z ->
  MinibatchStddev.G self n
  = Ok (if Z.eqb (n mod MinibatchStddev.group_size self) 0
        then Z.min (MinibatchStddev.group_size self) n else n).
Proof.
  intros H. unfold MinibatchStddev.G, py_mod.
  destruct (Z.eqb_spec (MinibatchStddev.group_size self) 0); [contradiction |].
  reflexivity.
Qed.

Lemma M_value (n Gz Mz : Z) :
  MinibatchStddev.M n Gz = Ok Mz -> Gz <> 0%Z /\ Mz = Z.quot n Gz.
Proof.
  unfold MinibatchStddev.M, py_int_truediv.
  destruct (Z.eqb_spec Gz 0) as [E | E]; intros H; [discriminate |].
  injection H as <-. now split.
Qed.

Lemma M_defined (n Gz : Z) :
  Gz <> 0%Z -> MinibatchStddev.M n Gz = Ok (Z.quot n Gz).
Proof.
  intros H. unfold MinibatchStddev.M, py_int_truediv.
  destruct (Z.eqb_spec Gz 0); [contradiction | reflexivity].
Qed.

(** A positive group size always divides the batch: it is either the
    configured size, which the test of line 69 found to divide it, or the
    batch size itself. *)
Lemma grouping_sound (self : MinibatchStddev.t) (N : nat) (Gz Mz : Z) :
  MinibatchStddev.G self (Z.of_nat N) = Ok Gz ->
  MinibatchStddev.M (Z.of_nat N) Gz = Ok Mz ->
  (1 <= Gz)%Z ->
  exists g m, Gz = Z.of_nat g /\ Mz = Z.of_nat m /\ g * m = N /\ 0 < m.
Proof.
  intros HG HM Hpos.
  apply G_value in HG. destruct HG as [Hgs HG].
  apply M_value in HM. destruct HM as [_ HM].
  set (gs := MinibatchStddev.group_size self) in *.
  destruct (Z.eqb_spec (Z.of_nat N mod gs) 0) as [Hdiv | Hdiv].
  - assert (Hgs1 : (1 <= gs)%Z) by lia.
    assert (HN1 : (1 <= Z.of_nat N)%Z) by lia.
    apply Z.mod_divide in Hdiv; [| exact Hgs].
    destruct Hdiv as [q Hq].
    assert (Hq1 : (1 <= q)%Z) by nia.
    assert (HGz : Gz = gs) by nia.
    assert (HMz : Mz = q).
    { rewrite HM, HGz, Hq. apply Z.quot_mul. exact Hgs. }
    exists (Z.to_nat gs), (Z.to_nat q).
    repeat split; lia.
  - exists N, 1. subst Gz.
    rewrite Z.quot_same in HM by lia.
    repeat split; lia.
Qed.

Lemma quot_minus_one (a : Z) : Z.quot a (-1) = (- a)%Z.
Proof.
  change (-1)%Z with (Z.opp 1). rewrite Z.quot_opp_r by lia.
  now rewrite Z.quot_1_r.
Qed.

(** A negative group size is refused by [reshape]. *)
Lemma reshape_negative_group (x : tensor) (Gz : Z) (n c h w : nat) :
  (Gz < 0)%Z ->
  reshape x [Gz; Z.quot (Z.of_nat n) Gz; Z.of_nat c; Z.of_nat h; Z.of_nat w]
  = Raise RuntimeError.
Proof.
  intros Hneg. unfold reshape, infer_size. cbn [existsb].
  destruct (Z.ltb_spec Gz (-1)) as [Hlt | Hge]; [reflexivity |].
  assert (Gz = (-1)%Z) as -> by lia.
  rewrite quot_minus_one.
  rewrite !of_nat_not_below by lia. cbn [orb filter].
  rewrite !of_nat_not_minus_one.
  destruct n as [| [| n']].
  - change (Z.of_nat 0) with 0%Z.
    cbn [Z.opp Z.ltb Z.compare orb Z.eqb Pos.eqb negb length Nat.sub
         fold_right Z.mul Z.to_nat Nat.ltb Nat.leb andb bind].
    reflexivity.
  - change (Z.of_nat 1) with 1%Z.
    cbn [Z.opp Z.ltb Z.compare Pos.compare Pos.compare_cont orb Z.eqb
         Pos.eqb negb length Nat.sub bind].
    reflexivity.
  - replace (Z.ltb (- Z.of_nat (S (S n'))) (-1)) with true
      by (symmetry; apply Z.ltb_lt; lia).
    reflexivity.
Qed.

Lemma forward_inv (self : MinibatchStddev.t) (x out : tensor)
    (N C H W : nat) :
  shape x = [N; C; H; W] ->
  MinibatchStddev.forward self x = Ok out ->
  exists g m,
    MinibatchStddev.G self (Z.of_nat N) = Ok (Z.of_nat g)
    /\ MinibatchStddev.M (Z.of_nat N) (Z.of_nat g) = Ok (Z.of_nat m)
    /\ g * m = N /\ 0 < m.
Proof.
  intros Hs. unfold MinibatchStddev.forward.
  rewrite (size_at x 0 N), (size_at x 1 C), (size_at x 2 H), (size_at x 3 W)
    by (rewrite Hs; reflexivity).
  cbn [bind].
  destruct (MinibatchStddev.G self (Z.of_nat N)) as [Gz | e] eqn:HG;
    cbn [bind]; [| discriminate].
  destruct (MinibatchStddev.M (Z.of_nat N) Gz) as [Mz | e] eqn:HM;
    cbn [bind]; [| discriminate].
  intros Hout.
  destruct (Z_lt_le_dec Gz 1) as [Hsmall | Hpos].
  - exfalso. destruct (M_value _ _ _ HM) as [Hnz ->].
    rewrite reshape_negative_group in Hout by lia. discriminate.
  - destruct (grouping_sound self N Gz Mz HG HM Hpos)
      as (g & m & -> & -> & HN & Hm).
    exists g, m. now repeat split.
Qed.

(** With a positive group size and a non-empty batch both lines run. *)
Lemma grouping_defined (self : MinibatchStddev.t) (N : nat) :
  (0 < MinibatchStddev.group_size self)%Z -> 1 <= N ->
  exists g m,
    MinibatchStddev.G self (Z.of_nat N) = Ok (Z.of_nat g)
    /\ MinibatchStddev.M (Z.of_nat N) (Z.of_nat g) = Ok (Z.of_nat m)
    /\ g * m = N /\ 0 < m.
Proof.
  intros Hgs HN.
  pose proof (G_defined self (Z.of_nat N) ltac:(lia)) as HG.
  set (Gz := if Z.eqb _ 0 then _ else _) in HG.
  assert (Hpos : (1 <= Gz)%Z) by (subst Gz; destruct (Z.eqb _ 0); lia).
  pose proof (M_defined (Z.of_nat N) Gz ltac:(lia)) as HM.
  destruct (grouping_sound self N Gz _ HG HM Hpos)
    as (g & m & Eg & Em & Hgm & Hm).
  exists g, m. rewrite <- Eg, <- Em. now repeat split.
Qed.

(** *** What the result holds *)

Lemma pixel_bound (C H W c h w : nat) :
  c < C -> h < H -> w < W -> (c * H + h) * W + w < C * numel [H; W].
Proof.
  intros Hc Hh Hw. cbn [numel fold_right]. rewrite Nat.mul_1_r.
  assert (c * H + h < C * H) by now apply horner_bound.
  replace (C * (H * W)) with (C * H * W) by ring.
  now apply horner_bound.
Qed.

Lemma wf_stat_channel (x : tensor) (g m C H W : nat) :
  wf (stat_channel x g m C H W).
Proof. unfold wf, stat_channel. cbn [data shape]. apply length_tabulate. Qed.

Lemma forward_output (self : MinibatchStddev.t) (x : tensor)
    (N C H W g m : nat) :
  shape x = [N; C; H; W] -> wf x ->
  MinibatchStddev.G self (Z.of_nat N) = Ok (Z.of_nat g) ->
  MinibatchStddev.M (Z.of_nat N) (Z.of_nat g) = Ok (Z.of_nat m) ->
  g * m = N -> 0 < m ->
  exists out,
    MinibatchStddev.forward self x = Ok out
    /\ shape out = [N; C + 1; H; W]
    /\ wf out
    /\ (forall n c h w, n < N -> c < C -> h < H -> w < W ->
          get4 out n c h w = get4 x n c h w)
    /\ (forall n h w, n < N -> h < H -> w < W ->
          get4 out n C h w = group_std x g m (numel [C; H; W]) (n mod m)).
Proof.
  intros Hs Hwf HG HM HN Hm.
  rewrite (forward_grouped self x N C H W g m) by assumption.
  eexists. split; [reflexivity |].
  set (Q := numel [H; W]).
  assert (Na : numel (shape x) = N * (C * Q)) by (rewrite Hs; reflexivity).
  assert (Nb : numel (shape (stat_channel x g m C H W)) = N * (1 * Q)).
  { unfold stat_channel. cbn [shape]. rewrite 2 numel_cons. fold Q. 
    rewrite <- HN. ring. }
  pose proof (wf_stat_channel x g m C H W) as Wb.
  split; [reflexivity |].
  split; [| split].
  - unfold wf. cbn [data shape].
    rewrite (length_flat_map_fixed _ (C * Q + 1 * Q)).
    + rewrite length_seq, 2 numel_cons. fold Q. ring.
    + intros o Ho. apply in_seq in Ho.
      rewrite length_app, (wf_chunk x N), (wf_chunk _ N) by (assumption || lia).
      reflexivity.
  - intros n c h w Hn Hc Hh Hw. unfold get4. rewrite Hs. cbn [shape].
    unfold at_ at 1. cbn [data].
    replace (((n * (C + 1) + c) * H + h) * W + w)
      with (n * (C * Q + 1 * Q) + ((c * H + h) * W + w))
      by (unfold Q; cbn [numel fold_right]; ring).
    pose proof (pixel_bound C H W c h w Hc Hh Hw) as Hr. fold Q in Hr.
    rewrite (nth_cat_blocks x _ N) by (assumption || lia).
    apply Nat.ltb_lt in Hr. rewrite Hr.
    f_equal. unfold Q. cbn [numel fold_right]. ring.
  - intros n h w Hn Hh Hw. unfold get4. cbn [shape].
    unfold at_ at 1. cbn [data].
    assert (Hp : h * W + w < Q).
    { unfold Q. cbn [numel fold_right]. rewrite Nat.mul_1_r.
      now apply horner_bound. }
    replace (((n * (C + 1) + C) * H + h) * W + w)
      with (n * (C * Q + 1 * Q) + (C * Q + (h * W + w)))
      by (unfold Q; cbn [numel fold_right]; ring).
    rewrite (nth_cat_blocks x _ N) by (assumption || lia).
    replace (C * Q + (h * W + w) <? C * Q) with false
      by (symmetry; apply Nat.ltb_ge; lia).
    replace (C * Q + (h * W + w) - C * Q) with (h * W + w) by lia.
    unfold stat_channel. rewrite at_tabulate.
    + fold Q. rewrite Nat.mul_1_l, horner_div by exact Hp. reflexivity.
    + rewrite 2 numel_cons. fold Q. rewrite <- HN in Hn.
      replace (m * g * (1 * Q)) with (g * m * (1 * Q)) by ring.
      now apply horner_bound; [| lia].
Qed.

(** Members of a group that all agree: the variance is 0 and the
    statistic is the square root of the stabiliser alone. *)
Lemma identical_group_std (x : tensor) (g m Q q : nat) :
  0 < g -> 0 < Q ->
  (forall i j, i < g -> j < Q ->
     at_ x (i * (m * Q) + (q * Q + j)) = at_ x (q * Q + j)) ->
  group_std x g m Q q = sqrt 1e-8.
Proof.
  intros Hg HQ Hsame. unfold group_std.
  rewrite (mean_tabulate_ext Q _ (fun _ => sqrt 1e-8)).
  - now apply mean_tabulate_const.
  - intros j Hj. f_equal.
    assert (Hmean : group_mean x g (m * Q) (q * Q + j) = at_ x (q * Q + j)).
    { unfold group_mean.
      rewrite (mean_tabulate_ext g _ (fun _ => at_ x (q * Q + j))).
      - now apply mean_tabulate_const.
      - intros i Hi. now apply Hsame. }
    unfold group_var.
    rewrite (mean_tabulate_ext g _ (fun _ => 0%R)).
    + rewrite mean_tabulate_const by exact Hg. lra.
    + intros i Hi. rewrite Hmean, Hsame by assumption. ring.
Qed.

Lemma sqrt_stabiliser : sqrt 1e-8 = 1e-4%R.
Proof. apply sqrt_lem_1; lra. Qed.

Lemma identical_batch_channel (x : tensor) (C H W : nat) :
  shape x = [4; C; H; W] -> wf x -> 0 < numel [C; H; W] ->
  (forall n j, n < 4 -> j < numel [C; H; W] ->
     at_ x (n * numel [C; H; W] + j) = at_ x j) ->
  exists out,
    MinibatchStddev.forward (MinibatchStddev.init 4) x = Ok out
    /\ shape out = [4; C + 1; H; W]
    /\ forall n h w, n < 4 -> h < H -> w < W ->
         get4 out n C h w = sqrt 1e-8.
Proof.
  intros Hs Hwf HQ Hsame.
  destruct (forward_output (MinibatchStddev.init 4) x 4 C H W 4 1)
    as (out & Hout & Hshape & _ & _ & Hstat);
    try assumption; try reflexivity; try lia.
  exists out. split; [exact Hout | split; [exact Hshape |]].
  intros n h w Hn Hh Hw. rewrite Hstat by assumption.
  rewrite Nat.mod_1_r. apply identical_group_std; [lia | exact HQ |].
  intros i j Hi Hj. rewrite Nat.mul_1_l, Nat.mul_0_l, Nat.add_0_l.
  now apply Hsame.
Qed.

End Stddev.

Lemma four_zeros_identical (n j : nat) :
  n < 4 -> j < Torch.numel [1; 1; 1] ->
  Torch.at_ four_zeros (n * Torch.numel [1; 1; 1] + j) = Torch.at_ four_zeros j.
Proof.
  cbn [Torch.numel fold_right Nat.mul Nat.add]. intros Hn Hj.
  assert (j = 0) as -> by lia.
  destruct n as [| [| [| [| n]]]]; try lia; reflexivity.
Qed.

(** C3 (as amended).  For a batch of 4 identical, non-empty feature maps
    and [group_size] 4, the forward pass succeeds and the appended channel
    holds, at every sample and pixel, the square root of the stabiliser
    [1e-8] that line 74 adds to the zero variance, that is [1e-4]. *)
Theorem stddev_identical_batch (x : Torch.tensor) (C H W : nat) :
  Torch.shape x = [4; C; H; W] -> Torch.wf x -> 0 < Torch.numel [C; H; W] ->
  (forall n j, n < 4 -> j < Torch.numel [C; H; W] ->
     Torch.at_ x (n * Torch.numel [C; H; W] + j) = Torch.at_ x j) ->
  exists out,
    MinibatchStddev.forward (MinibatchStddev.init 4) x = Ok out
    /\ forall n h w, n < 4 -> h < H -> w < W ->
         Torch.get4 out n C h w = sqrt 1e-8
         /\ Torch.get4 out n C h w = 1e-4%R.
Proof.
  intros Hs Hwf HQ Hsame.
  destruct (identical_batch_channel x C H W Hs Hwf HQ Hsame)
    as (out & Hout & _ & Hstat).
  exists out. split; [exact Hout |].
  intros n h w Hn Hh Hw. rewrite (Hstat n h w) by assumption.
  split; [reflexivity | exact sqrt_stabiliser].
Qed.

Lemma stddev_identical_batch_witness :
  exists out,
    MinibatchStddev.forward (MinibatchStddev.init 4) four_zeros = Ok out
    /\ forall n h w, n < 4 -> h < 1 -> w < 1 ->
         Torch.get4 out n 1 h w = sqrt 1e-8
         /\ Torch.get4 out n 1 h w = 1e-4%R.
Proof.
  apply (stddev_identical_batch four_zeros 1 1 1).
  - reflexivity.
  - reflexivity.
  - cbn [Torch.numel fold_right Nat.mul]. lia.
  - exact four_zeros_identical.
Defined.

(** C3 as stated fails: on four identical (zero) feature maps the
    appended channel is not zero. *)
Lemma stddev_identical_batch_not_zero :
  exists out,
    MinibatchStddev.forward (MinibatchStddev.init 4) four_zeros = Ok out
    /\ Torch.get4 out 0 1 0 0 <> 0%R.
Proof.
  destruct (identical_batch_channel four_zeros 1 1 1)
    as (out & Hout & _ & Hstat).
  - reflexivity.
  - reflexivity.
  - cbn [Torch.numel fold_right Nat.mul]. lia.
  - exact four_zeros_identical.
  - exists out. split; [exact Hout |].
    rewrite (Hstat 0 0 0) by lia. rewrite sqrt_stabiliser. lra.
Qed.



(** C8.  Whenever the forward pass succeeds on an N x C x H x W input it
    returns an N x (C+1) x H x W tensor whose first [C] channels are the
    input, entry by entry. *)
Theorem stddev_appends_one_channel (self : MinibatchStddev.t)
    (x out : Torch.tensor) (N C H W : nat) :
  Torch.shape x = [N; C; H; W] -> Torch.wf x ->
  MinibatchStddev.forward self x = Ok out ->
  Torch.shape out = [N; C + 1; H; W]
  /\ Torch.wf out
  /\ forall n c h w, n < N -> c < C -> h < H -> w < W ->
       Torch.get4 out n c h w = Torch.get4 x n c h w.
Proof.
  intros Hs Hwf Hout.
  destruct (forward_inv self x out N C H W Hs Hout)
    as (g & m & HG & HM & HN & Hm).
  destruct (forward_output self x N C H W g m Hs Hwf HG HM HN Hm)
    as (out' & Hout' & Hshape & Hwf' & Hkeep & _).
  rewrite Hout in Hout'. injection Hout' as <-.
  now repeat split.
Qed.

Lemma stddev_appends_one_channel_witness :
  exists out,
    MinibatchStddev.forward MinibatchStddev.init_default one_map = Ok out
    /\ Torch.shape out = [1; 2; 1; 1]
    /\ Torch.get4 out 0 0 0 0 = 5%R.
Proof.
  destruct (MinibatchStddev.forward MinibatchStddev.init_default one_map)
    as [out | e] eqn:E; [| discriminate E].
  exists out. split; [reflexivity |].
  destruct (stddev_appends_one_channel MinibatchStddev.init_default one_map
              out 1 1 1 1) as (Hshape & _ & Hkeep).
  - reflexivity.
  - reflexivity.
  - exact E.
  - split; [exact Hshape |]. rewrite Hkeep by lia. reflexivity.
Defined.

(** C10.  With a positive [group_size], an empty batch makes line 69
    choose [G = 0] and line 70 raise [ZeroDivisionError], which is what
    the forward pass raises; on a batch of at least one sample the forward
    pass returns a tensor. *)
Theorem stddev_empty_batch (self : MinibatchStddev.t) (x : Torch.tensor)
    (N C H W : nat) :
  Torch.shape x = [N; C; H; W] ->
  (0 < MinibatchStddev.group_size self)%Z ->
  (N = 0 ->
     MinibatchStddev.G self 0 = Ok 0%Z
     /\ MinibatchStddev.M 0 0 = Raise ZeroDivisionError
     /\ MinibatchStddev.forward self x = Raise ZeroDivisionError)
  /\ (1 <= N -> exists out, MinibatchStddev.forward self x = Ok out).
Proof.
  intros Hs Hgs. split.
  - intros ->.
    assert (HG : MinibatchStddev.G self 0 = Ok 0%Z).
    { rewrite G_defined by lia. rewrite Z.mod_0_l by lia.
      cbn [Z.eqb]. f_equal. lia. }
    split; [exact HG | split; [reflexivity |]].
    unfold MinibatchStddev.forward.
    rewrite (size_at x 0 0) by (rewrite Hs; reflexivity).
    cbn [bind Z.of_nat]. rewrite HG. reflexivity.
  - intros HN.
    destruct (grouping_defined self N Hgs HN) as (g & m & HG & HM & Hgm & Hm).
    eexists. now apply (forward_grouped self x N C H W g m).
Qed.

Lemma stddev_empty_batch_witness :
  MinibatchStddev.forward MinibatchStddev.init_default no_map
  = Raise ZeroDivisionError.
Proof.
  apply (stddev_empty_batch MinibatchStddev.init_default no_map 0 1 1 1).
  - reflexivity.
  - reflexivity.
  - reflexivity.
Defined.

(** ** Pixelwise normalisation *)

Section Pixelwise.
Import Torch.


(** The flat index of [n, c, h, w], split into plane and pixel. *)
Lemma flat4_split (C H W n c h w : nat) :
  ((n * C + c) * H + h) * W + w = (n * C + c) * numel [H; W] + (h * W + w).
Proof. cbn [numel fold_right]. ring. Qed.

Lemma pixel_in_plane (H W h w : nat) :
  h < H -> w < W -> h * W + w < numel [H; W].
Proof.
  intros Hh Hw. cbn [numel fold_right]. rewrite Nat.mul_1_r.
  now apply horner_bound.
Qed.



End Pixelwise.



(** ** The equalized linear layer *)

Section LinearLayer.
Import Torch.




End LinearLayer.



(** ** Fading in *)

Section FadeinForward.
Import Torch PyFloat.










End FadeinForward.



(** ** Nearest-neighbour upsampling *)

Section Nearest.
Import Torch.







End Nearest.



(** * Further properties of the layers *)

(** ** The bias of the convolution layers *)

Section ChannelBias.
Import Torch.

(** An operand whose every size is 1 or the size of the other operand
    expands to the shape of the other. *)
Lemma bc_shape_expand (ra rb : list nat) :
  Forall2 (fun a b => a = 1 \/ a = b) ra rb -> bc_shape ra rb = Some rb.
Proof.
  induction 1 as [| a b ra rb Hab _ IH]; [reflexivity |].
  cbn [bc_shape]. rewrite IH.
  destruct (Nat.eqb_spec a b) as [-> | Hne]; [reflexivity |].
  destruct Hab as [-> | ->]; [reflexivity | contradiction].
Qed.

(** [b.view(1, -1, 1, 1)] of a vector. *)
Lemma reshape_channel_vector (b : tensor) (B : nat) :
  shape b = [B] ->
  reshape b [1; -1; 1; 1]%Z = Ok (mkT [1; B; 1; 1] (data b)).
Proof.
  intros Hb. unfold reshape, infer_size. rewrite Hb.
  cbn [existsb filter map Z.ltb Z.eqb Z.compare Pos.compare Pos.compare_cont
       Pos.eqb orb negb length Nat.sub fold_right Z.mul Pos.mul Z.to_nat
       Pos.to_nat Pos.iter_op Nat.add numel].
  rewrite Nat.mul_1_r, Nat.mod_1_r, Nat.div_1_r. reflexivity.
Qed.

(** Lines 23 and 40: the vector is added to every pixel of its channel. *)
Lemma add_channel_bias (y b : tensor) (N O H W : nat) :
  shape y = [N; O; H; W] -> shape b = [O] ->
  (b1 <- reshape b [1; -1; 1; 1]%Z ;; b2 <- expand_as b1 y ;; add y b2)
  = Ok (mkT [N; O; H; W]
          (tabulate (numel [N; O; H; W]) (fun k =>
             (at_ y k + at_ b ((k / numel [H; W]) mod O))%R))).
Proof.
  intros Hy Hb. rewrite (reshape_channel_vector b O Hb). cbn [bind].
  unfold expand_as. cbn [shape]. rewrite Hy. cbn [rev app].
  rewrite (bc_shape_expand [1; 1; O; 1] [W; H; O; N])
    by (repeat constructor; now right).
  destruct (list_eq_dec Nat.eq_dec [W; H; O; N] [W; H; O; N]) as [_ | ne];
    [| now elim ne].
  cbn [bind]. unfold add. rewrite bop_same by (cbn [shape]; now rewrite Hy).
  rewrite Hy. f_equal. f_equal. apply tabulate_ext. intros k Hk.
  f_equal. unfold expand_to, at_ at 1. cbn [data shape rev app].
  rewrite nth_tabulate
    by (change [W; H; O; N] with (rev [N; O; H; W]);
        rewrite numel_rev; exact Hk).
  cbn [bc_offset]. rewrite unit_or_mod, !Nat.eqb_refl.
  rewrite !Nat.mul_1_l, !Nat.add_0_l, Nat.mul_0_r, Nat.add_0_r.
  rewrite Nat.Div0.div_div. cbn [numel fold_right].
  rewrite Nat.mul_1_r, (Nat.mul_comm W H). reflexivity.
Qed.

Lemma channel_index (N O H W n o h w : nat) :
  n < N -> o < O -> h < H -> w < W ->
  ((n * O + o) * H + h) * W + w < numel [N; O; H; W]
  /\ ((((n * O + o) * H + h) * W + w) / numel [H; W]) mod O = o.
Proof.
  intros Hn Ho Hh Hw.
  pose proof (pixel_in_plane H W h w Hh Hw) as Hp.
  rewrite flat4_split. set (Q := numel [H; W]) in *.
  change (numel [N; O; H; W]) with (N * (O * Q)).
  split.
  - replace (N * (O * Q)) with (N * O * Q) by ring.
    apply horner_bound; [now apply horner_bound | exact Hp].
  - rewrite horner_div by exact Hp. now apply horner_mod.
Qed.

End ChannelBias.

(** X1.  Whatever the convolution primitive is, the equalized convolution
    hands it the input multiplied by [scale]; without bias it returns the
    primitive's result as it is, and with bias it adds [bias_param[o]] to
    every pixel of output channel [o]. *)
Theorem conv_forward_bias
    (conv2d : Torch.tensor -> nat * nat -> nat * nat -> Torch.tensor
              -> result Torch.tensor)
    (self : EqualizedConv2d.t) (x y : Torch.tensor) (N O H W : nat) :
  conv2d (EqualizedConv2d.weight self) (EqualizedConv2d.stride self)
    (EqualizedConv2d.padding self)
    (Torch.mul_scalar x (EqualizedConv2d.scale self)) = Ok y ->
  Torch.shape y = [N; O; H; W] ->
  (EqualizedConv2d.bias self = false ->
     EqualizedConv2d.forward conv2d self x = Ok y)
  /\ (forall b, EqualizedConv2d.bias self = true ->
        EqualizedConv2d.bias_param self = Some b -> Torch.shape b = [O] ->
        exists out,
          EqualizedConv2d.forward conv2d self x = Ok out
          /\ Torch.shape out = [N; O; H; W]
          /\ forall n o h w, n < N -> o < O -> h < H -> w < W ->
               Torch.get4 out n o h w
               = (Torch.get4 y n o h w + Torch.at_ b o)%R).
Proof.
  intros Hconv Hy. unfold EqualizedConv2d.forward. rewrite Hconv. cbn [bind].
  split.
  - intros ->. reflexivity.
  - intros b -> -> Hb. rewrite (add_channel_bias y b N O H W Hy Hb).
    eexists. split; [reflexivity | split; [reflexivity |]].
    intros n o h w Hn Ho Hh Hw.
    destruct (channel_index N O H W n o h w Hn Ho Hh Hw) as [Hk Hch].
    unfold Torch.get4. rewrite Hy. cbn [Torch.shape].
    rewrite at_tabulate by exact Hk. now rewrite Hch.
Qed.

(** X2.  The same for the transposed convolution. *)
Theorem deconv_forward_bias
    (conv_transpose2d : Torch.tensor -> nat * nat -> nat * nat -> Torch.tensor
                        -> result Torch.tensor)
    (self : EqualizedDeconv2d.t) (x y : Torch.tensor) (N O H W : nat) :
  conv_transpose2d (EqualizedDeconv2d.weight self)
    (EqualizedDeconv2d.stride self) (EqualizedDeconv2d.padding self)
    (Torch.mul_scalar x (EqualizedDeconv2d.scale self)) = Ok y ->
  Torch.shape y = [N; O; H; W] ->
  (EqualizedDeconv2d.bias self = false ->
     EqualizedDeconv2d.forward conv_transpose2d self x = Ok y)
  /\ (forall b, EqualizedDeconv2d.bias self = true ->
        EqualizedDeconv2d.bias_param self = Some b -> Torch.shape b = [O] ->
        exists out,
          EqualizedDeconv2d.forward conv_transpose2d self x = Ok out
          /\ Torch.shape out = [N; O; H; W]
          /\ forall n o h w, n < N -> o < O -> h < H -> w < W ->
               Torch.get4 out n o h w
               = (Torch.get4 y n o h w + Torch.at_ b o)%R).
Proof.
  intros Hconv Hy. unfold EqualizedDeconv2d.forward. rewrite Hconv.
  cbn [bind]. split.
  - intros ->. reflexivity.
  - intros b -> -> Hb. rewrite (add_channel_bias y b N O H W Hy Hb).
    eexists. split; [reflexivity | split; [reflexivity |]].
    intros n o h w Hn Ho Hh Hw.
    destruct (channel_index N O H W n o h w Hn Ho Hh Hw) as [Hk Hch].
    unfold Torch.get4. rewrite Hy. cbn [Torch.shape].
    rewrite at_tabulate by exact Hk. now rewrite Hch.
Qed.

Lemma conv_forward_bias_witness :
  exists out,
    EqualizedConv2d.forward pointwise_conv small_conv one_map = Ok out
    /\ Torch.get4 out 0 0 0 0 = (5 * 2 + 7)%R.
Proof.
  destruct (conv_forward_bias pointwise_conv small_conv one_map
              (Torch.mul_scalar one_map 2) 1 1 1 1 eq_refl eq_refl)
    as [_ Hbias].
  destruct (Hbias (Torch.mkT [1] [7%R]) eq_refl eq_refl eq_refl)
    as (out & Hout & _ & Hval).
  exists out. split; [exact Hout |].
  rewrite (Hval 0 0 0 0) by lia. reflexivity.
Defined.

Lemma deconv_forward_bias_witness :
  exists out,
    EqualizedDeconv2d.forward pointwise_conv small_deconv one_map = Ok out
    /\ Torch.get4 out 0 0 0 0 = (5 * 2 + 7)%R.
Proof.
  destruct (deconv_forward_bias pointwise_conv small_deconv one_map
              (Torch.mul_scalar one_map 2) 1 1 1 1 eq_refl eq_refl)
    as [_ Hbias].
  destruct (Hbias (Torch.mkT [1] [7%R]) eq_refl eq_refl eq_refl)
    as (out & Hout & _ & Hval).
  exists out. split; [exact Hout |].
  rewrite (Hval 0 0 0 0) by lia. reflexivity.
Defined.

(** ** The linear layer: refused inputs, and what equalization computes *)

Section LinearMore.
Import Torch.


End LinearMore.

(** X3.  An empty batch is refused: [x.view(0, -1)] cannot infer the
    second size, so the forward pass raises a runtime error whatever the
    layer is. *)
Theorem linear_refuses_empty_batch (self : EqualizedLinear.t)
    (x : Torch.tensor) (rest : list nat) :
  Torch.shape x = 0 :: rest ->
  EqualizedLinear.forward self x = Raise RuntimeError.
Proof.
  intros Hs. unfold EqualizedLinear.forward.
  rewrite (size_at _ 0 0)
    by (cbn [Torch.mul_scalar Torch.map_t Torch.shape]; rewrite Hs; reflexivity).
  cbn [bind]. unfold Torch.reshape.
  rewrite (infer_size_rows 0). reflexivity.
Qed.

Lemma linear_refuses_empty_batch_witness :
  EqualizedLinear.forward small_linear (Torch.mkT [0; 2] [])
  = Raise RuntimeError.
Proof.
  apply (linear_refuses_empty_batch small_linear (Torch.mkT [0; 2] []) [2]).
  reflexivity.
Defined.

(** X4.  A batch whose rows do not hold [in_features] values is refused
    with a runtime error. *)
Theorem linear_refuses_wrong_width (self : EqualizedLinear.t)
    (x : Torch.tensor) (N I O : nat) (rest : list nat) :
  Torch.shape x = N :: rest -> 0 < N ->
  Torch.shape (EqualizedLinear.weight self) = [O; I] ->
  Torch.numel rest <> I ->
  EqualizedLinear.forward self x = Raise RuntimeError.
Proof.
  intros Hs HN Hw Hne. unfold EqualizedLinear.forward.
  rewrite (size_at _ 0 N)
    by (cbn [Torch.mul_scalar Torch.map_t Torch.shape]; rewrite Hs; reflexivity).
  cbn [bind].
  rewrite (reshape_rows _ N (Torch.numel rest))
    by (exact HN
        || (cbn [Torch.mul_scalar Torch.map_t Torch.shape];
            rewrite Hs; reflexivity)).
  cbn [bind]. unfold Torch.linear. rewrite Hw. cbn [Torch.shape rev app].
  apply Nat.eqb_neq in Hne. rewrite Hne. reflexivity.
Qed.

Lemma linear_refuses_wrong_width_witness :
  EqualizedLinear.forward small_linear (Torch.mkT [1; 3] [1; 2; 3]%R)
  = Raise RuntimeError.
Proof.
  apply (linear_refuses_wrong_width small_linear
           (Torch.mkT [1; 3] [1; 2; 3]%R) 1 2 1 [3]).
  - reflexivity.
  - lia.
  - reflexivity.
  - cbn [Torch.numel fold_right]. lia.
Defined.



(** ** Minibatch standard deviation: grouping, refusals, the statistic *)

(** X6.  Whenever lines 69 and 70 both run, the groups tile the batch:
    [G * M] is the batch size, whatever [group_size] is; with a positive
    [group_size] both are at least 1 and [G] is at most the batch size. *)
Theorem stddev_groups_tile_batch (self : MinibatchStddev.t) (N : nat)
    (Gz Mz : Z) :
  MinibatchStddev.G self (Z.of_nat N) = Ok Gz ->
  MinibatchStddev.M (Z.of_nat N) Gz = Ok Mz ->
  (Gz * Mz = Z.of_nat N)%Z
  /\ ((0 < MinibatchStddev.group_size self)%Z ->
        (1 <= Gz <= Z.of_nat N)%Z /\ (1 <= Mz)%Z).
Proof.
  intros HG HM.
  destruct (G_value _ _ _ HG) as [Hgs EG].
  destruct (M_value _ _ _ HM) as [HG0 EM].
  set (gs := MinibatchStddev.group_size self) in *.
  assert (Htile : (Gz * Mz = Z.of_nat N)%Z).
  { destruct (Z.eqb_spec (Z.of_nat N mod gs) 0) as [Hdiv | Hdiv].
    - destruct (Z.min_spec gs (Z.of_nat N)) as [[_ Emin] | [_ Emin]];
        rewrite Emin in EG; subst Gz.
      + apply Z.mod_divide in Hdiv; [| exact Hgs].
        destruct Hdiv as [q Hq]. rewrite EM, Hq, Z.quot_mul by exact Hgs. ring.
      + rewrite EM, Z.quot_same by exact HG0. ring.
    - subst Gz. rewrite EM, Z.quot_same by exact HG0. ring. }
  split; [exact Htile |].
  intros Hpos.
  assert (HGz : (1 <= Gz <= Z.of_nat N)%Z).
  { destruct (Z.eqb_spec (Z.of_nat N mod gs) 0); lia. }
  split; [exact HGz | nia].
Qed.

Lemma stddev_groups_tile_batch_witness :
  (4 * 2 = Z.of_nat 8)%Z /\ ((0 < 4)%Z -> (1 <= 4 <= Z.of_nat 8)%Z /\ (1 <= 2)%Z).
Proof.
  apply (stddev_groups_tile_batch (MinibatchStddev.init 4) 8 4 2).
  - reflexivity.
  - reflexivity.
Defined.

(** X7.  With [group_size] 0 the divisibility test of line 69 divides by
    zero: the forward pass raises [ZeroDivisionError] on every input that
    has a batch dimension. *)
Theorem stddev_group_size_zero (self : MinibatchStddev.t) (x : Torch.tensor)
    (N : nat) (rest : list nat) :
  MinibatchStddev.group_size self = 0%Z ->
  Torch.shape x = N :: rest ->
  MinibatchStddev.forward self x = Raise ZeroDivisionError.
Proof.
  intros Hgs Hs. unfold MinibatchStddev.forward.
  rewrite (size_at x 0 N) by (rewrite Hs; reflexivity).
  cbn [bind]. unfold MinibatchStddev.G, py_mod. rewrite Hgs. reflexivity.
Qed.

Lemma stddev_group_size_zero_witness :
  MinibatchStddev.forward (MinibatchStddev.init 0) five_maps
  = Raise ZeroDivisionError.
Proof.
  apply (stddev_group_size_zero (MinibatchStddev.init 0) five_maps 5 [1; 1; 1]);
    reflexivity.
Defined.

(** X8.  A negative [group_size] that divides the batch size is taken as
    the group size by line 69 and then refused by [reshape]: the forward
    pass raises a runtime error. *)
Theorem stddev_negative_group_size (self : MinibatchStddev.t)
    (x : Torch.tensor) (N C H W : nat) :
  Torch.shape x = [N; C; H; W] ->
  (MinibatchStddev.group_size self < 0)%Z ->
  (Z.of_nat N mod MinibatchStddev.group_size self = 0)%Z ->
  MinibatchStddev.forward self x = Raise RuntimeError.
Proof.
  intros Hs Hneg Hdiv. unfold MinibatchStddev.forward.
  rewrite (size_at x 0 N), (size_at x 1 C), (size_at x 2 H), (size_at x 3 W)
    by (rewrite Hs; reflexivity).
  cbn [bind]. rewrite G_defined by lia. rewrite Hdiv. cbn [Z.eqb bind].
  rewrite Z.min_l by lia. rewrite M_defined by lia. cbn [bind].
  rewrite reshape_negative_group by exact Hneg. reflexivity.
Qed.

Lemma stddev_negative_group_size_witness :
  MinibatchStddev.forward (MinibatchStddev.init (-2)) four_zeros
  = Raise RuntimeError.
Proof.
  apply (stddev_negative_group_size (MinibatchStddev.init (-2)) four_zeros
           4 1 1 1); reflexivity.
Defined.

(** X9.  The layer needs four dimensions: on a non-empty batch of fewer
    (one to three) dimensions, with a positive [group_size], the sizes
    read on line 71 are missing and the forward pass raises
    [IndexError]. *)
Theorem stddev_needs_four_dimensions (self : MinibatchStddev.t)
    (x : Torch.tensor) (N : nat) (rest : list nat) :
  Torch.shape x = N :: rest -> length rest < 3 -> 1 <= N ->
  (0 < MinibatchStddev.group_size self)%Z ->
  MinibatchStddev.forward self x = Raise IndexError.
Proof.
  intros Hs Hrank HN Hgs. unfold MinibatchStddev.forward.
  rewrite (size_at x 0 N) by (rewrite Hs; reflexivity).
  cbn [bind].
  destruct (grouping_defined self N Hgs HN) as (g & m & HG & HM & _).
  rewrite HG. cbn [bind]. rewrite HM. cbn [bind].
  unfold Torch.size. rewrite Hs.
  destruct rest as [| c [| h [| w rest]]]; cbn [nth_error bind];
    try reflexivity.
  cbn [length] in Hrank. lia.
Qed.

Lemma stddev_needs_four_dimensions_witness :
  MinibatchStddev.forward MinibatchStddev.init_default
    (Torch.mkT [2; 3] [1; 2; 3; 4; 5; 6]%R)
  = Raise IndexError.
Proof.
  apply (stddev_needs_four_dimensions MinibatchStddev.init_default
           (Torch.mkT [2; 3] [1; 2; 3; 4; 5; 6]%R) 2 [3]).
  - reflexivity.
  - cbn [length]. lia.
  - lia.
  - reflexivity.
Defined.

Section Statistic.
Import Torch Stats.
Local Open Scope R_scope.












End Statistic.

(** X10.  The appended channel carries one number per group: after a
    successful forward pass with [M] groups, it holds the same value at
    every pixel of every sample of one group, samples [n] and [n'] being
    in one group when [n mod M = n' mod M]. *)
Theorem stddev_statistic_shared (self : MinibatchStddev.t)
    (x out : Torch.tensor) (N C H W : nat) :
  Torch.shape x = [N; C; H; W] -> Torch.wf x ->
  MinibatchStddev.forward self x = Ok out ->
  exists g m,
    MinibatchStddev.G self (Z.of_nat N) = Ok (Z.of_nat g)
    /\ MinibatchStddev.M (Z.of_nat N) (Z.of_nat g) = Ok (Z.of_nat m)
    /\ forall n n' h w h' w',
         n < N -> n' < N -> h < H -> w < W -> h' < H -> w' < W ->
         n mod m = n' mod m ->
         Torch.get4 out n C h w = Torch.get4 out n' C h' w'.
Proof.
  intros Hs Hwf Hout.
  destruct (forward_inv self x out N C H W Hs Hout)
    as (g & m & HG & HM & HN & Hm).
  destruct (forward_output self x N C H W g m Hs Hwf HG HM HN Hm)
    as (out' & Hout' & _ & _ & _ & Hstat).
  rewrite Hout in Hout'. apply Ok_inj in Hout'. subst out'.
  exists g, m. split; [exact HG | split; [exact HM |]].
  intros n n' h w h' w' Hn Hn' Hh Hw Hh' Hw' Hmod.
  rewrite (Hstat n h w), (Hstat n' h' w') by assumption.
  now rewrite Hmod.
Qed.

Lemma stddev_statistic_shared_witness :
  exists out,
    MinibatchStddev.forward MinibatchStddev.init_default two_by_two = Ok out
    /\ Torch.get4 out 0 1 0 0 = Torch.get4 out 0 1 1 1.
Proof.
  destruct (MinibatchStddev.forward MinibatchStddev.init_default two_by_two)
    as [out | e] eqn:E; [| discriminate E].
  exists out. split; [reflexivity |].
  destruct (stddev_statistic_shared MinibatchStddev.init_default two_by_two
              out 1 1 2 2 eq_refl eq_refl E) as (g & m & _ & _ & Hsame).
  apply Hsame; lia.
Defined.





(** ** Pixelwise normalisation: ranks, and the normalised mean square *)

Section PixelwiseMore.
Import Torch.
Local Open Scope R_scope.



End PixelwiseMore.

(** X13.  The normalisation works on any input of at least two
    dimensions (a batch of latent vectors as well as a batch of feature
    maps): it returns a tensor of the shape of its input. *)
Theorem pixelwise_keeps_shape (x : Torch.tensor) (n d : nat)
    (post : list nat) :
  Torch.shape x = n :: d :: post ->
  exists out,
    PixelwiseNorm.forward x = Ok out
    /\ Torch.shape out = Torch.shape x
    /\ Torch.wf out.
Proof.
  intros Hs. unfold PixelwiseNorm.forward.
  rewrite (mean_dim_second _ n d post true) by exact Hs.
  cbn [bind app].
  unfold Torch.div, Torch.sqrt_t, Torch.add_scalar, Torch.map_t.
  cbn [Torch.shape Torch.data].
  rewrite (bop_unit Rdiv _ _ [n] post d) by (exact Hs || reflexivity).
  eexists. split; [reflexivity | split; [reflexivity |]].
  unfold Torch.wf. cbn [Torch.shape Torch.data]. apply length_tabulate.
Qed.

Lemma pixelwise_keeps_shape_witness :
  exists out,
    PixelwiseNorm.forward (Torch.mkT [2; 3] [1; 2; 3; 4; 5; 6]%R) = Ok out
    /\ Torch.shape out = [2; 3].
Proof.
  destruct (pixelwise_keeps_shape (Torch.mkT [2; 3] [1; 2; 3; 4; 5; 6]%R)
              2 3 [] eq_refl) as (out & Hout & Hshape & _).
  exists out. split; [exact Hout | exact Hshape].
Defined.

(** X14.  An input without a channel dimension is refused: the mean over
    dimension 1 raises [IndexError]. *)
Theorem pixelwise_needs_channels (x : Torch.tensor) :
  length (Torch.shape x) < 2 ->
  PixelwiseNorm.forward x = Raise IndexError.
Proof.
  intros Hrank. unfold PixelwiseNorm.forward, Torch.mean_dim.
  cbn [Torch.pow2 Torch.map_t Torch.shape].
  destruct (Torch.shape x) as [| n [| d post]]; cbn [nth_error bind];
    try reflexivity.
  cbn [length] in Hrank. lia.
Qed.

Lemma pixelwise_needs_channels_witness :
  PixelwiseNorm.forward (Torch.mkT [3] [1; 2; 3]%R) = Raise IndexError.
Proof.
  apply (pixelwise_needs_channels (Torch.mkT [3] [1; 2; 3]%R)).
  cbn [Torch.shape length]. lia.
Defined.



(** ** Fading in: the two branches, the list argument, the updates *)

Section FadeinMore.
Import Torch PyFloat.




(** What the clamp of line 107 returns: [+0.0], or a positive finite
    number that is not above 1. *)
Lemma clamp_cases (r : float) :
  py_max zero (py_min r one) = zero
  \/ exists m e,
       py_max zero (py_min r one) = S754_finite false m e
       /\ ltb one (S754_finite false m e) = false.
Proof.
  unfold py_max, py_min, ltb, zero. rewrite one_bits.
  destruct r as [s | s | | s m e]; try (destruct s);
    try (left; reflexivity);
    try (right; exists 4503599627370496%positive, (-52)%Z; split; reflexivity).
  unfold SFltb, SFcompare.
  destruct (Z.compare (-52) e) eqn:He;
    [ destruct (Pos.compare_cont Eq 4503599627370496 m) eqn:Hm | | ];
    cbv iota beta;
    try (right; exists 4503599627370496%positive, (-52)%Z; split; reflexivity);
    right; exists m, e; (split; [reflexivity |]);
    rewrite He; cbv iota beta; try rewrite Hm; reflexivity.
Qed.

End FadeinMore.



(** X17.  The forward pass reads the first two elements of its list: a
    list of fewer than two tensors raises [IndexError], and on a longer
    list the elements after the second are ignored and no [IndexError] is
    raised. *)
Theorem fadein_reads_two_tensors (self : Fadein.t) :
  (forall x, length x < 2 -> Fadein.forward self x = Raise IndexError)
  /\ (forall a b rest,
        Fadein.forward self (a :: b :: rest) = Fadein.forward self [a; b]
        /\ Fadein.forward self (a :: b :: rest) <> Raise IndexError).
Proof.
  split.
  - intros x Hx. destruct x as [| a [| b rest]];
      [reflexivity | reflexivity | cbn [length] in Hx; lia].
  - intros a b rest. split; [reflexivity |].
    unfold Fadein.forward, Fadein.index. cbn [nth_error bind].
    unfold Torch.add, Torch.bop.
    destruct (Torch.bc_shape _ _); discriminate.
Qed.

(** X18.  A NaN advance does not poison [alpha]: it resets it to 0,
    because both comparisons of line 107 are false on NaN.  On a finite
    [alpha], an infinite advance saturates: plus infinity gives 1, minus
    infinity gives 0. *)
Theorem update_alpha_not_a_number (self : Fadein.t) :
  Fadein.update_alpha self S754_nan = Fadein.mk PyFloat.zero
  /\ (PyFloat.is_finite (Fadein.alpha self) = true ->
        Fadein.update_alpha self (S754_infinity false)
        = Fadein.mk PyFloat.one
        /\ Fadein.update_alpha self (S754_infinity true)
           = Fadein.mk PyFloat.zero).
Proof.
  destruct self as [a]. unfold Fadein.update_alpha. cbn [Fadein.alpha].
  split.
  - destruct a as [s | s | | s m e]; reflexivity.
  - intros Hfin.
    destruct a as [s | s | | s m e]; try discriminate Hfin;
      split; reflexivity.
Qed.

(** X19.  After any update, advancing by 0.0 changes nothing: the
    clamped value is [+0.0] or a positive number not above 1, which both
    the addition of zero and the clamp return as it is. *)
Theorem update_alpha_zero_advance (self : Fadein.t) (delta : PyFloat.float) :
  Fadein.update_alpha (Fadein.update_alpha self delta) PyFloat.zero
  = Fadein.update_alpha self delta.
Proof.
  unfold Fadein.update_alpha. cbn [Fadein.alpha].
  destruct (clamp_cases (PyFloat.add (Fadein.alpha self) delta))
    as [-> | (m & e & -> & Hle)].
  - reflexivity.
  - change (PyFloat.add (S754_finite false m e) PyFloat.zero)
      with (S754_finite false m e).
    unfold PyFloat.py_min. rewrite Hle. reflexivity.
Qed.

(** ** Upsampling: twice, and the mean *)

Section NearestMore.
Import Torch.


Local Open Scope R_scope.







End NearestMore.





(** ** Groups of one *)

(** X22.  With groups of a single sample (a positive [group_size] and a
    batch of one sample, or [group_size] 1 on any non-empty batch) every
    deviation from the group mean is 0, so the appended channel carries
    no information: it is [1e-4] everywhere. *)
Theorem stddev_groups_of_one (self : MinibatchStddev.t) (x : Torch.tensor)
    (N C H W : nat) :
  Torch.shape x = [N; C; H; W] -> Torch.wf x -> 0 < C -> 1 <= N ->
  (0 < MinibatchStddev.group_size self)%Z ->
  MinibatchStddev.group_size self = 1%Z \/ N = 1 ->
  exists out,
    MinibatchStddev.forward self x = Ok out
    /\ forall n h w, n < N -> h < H -> w < W ->
         Torch.get4 out n C h w = 1e-4%R.
Proof.
  intros Hs Hwf HC HN Hgs Hone.
  assert (HG : MinibatchStddev.G self (Z.of_nat N) = Ok (Z.of_nat 1)).
  { rewrite G_defined by lia. f_equal.
    destruct Hone as [E | E].
    - rewrite E, Z.mod_1_r. cbn [Z.eqb]. lia.
    - subst N. change (Z.of_nat 1) with 1%Z.
      destruct (Z.eqb_spec (1 mod MinibatchStddev.group_size self) 0); lia. }
  assert (HM : MinibatchStddev.M (Z.of_nat N) (Z.of_nat 1) = Ok (Z.of_nat N)).
  { rewrite M_defined by (cbn; lia). f_equal. apply Z.quot_1_r. }
  destruct (forward_output self x N C H W 1 N Hs Hwf HG HM)
    as (out & Hout & _ & _ & _ & Hstat); [lia | lia |].
  exists out. split; [exact Hout |].
  intros n h w Hn Hh Hw. rewrite (Hstat n h w) by assumption.
  rewrite <- sqrt_stabiliser. apply identical_group_std.
  - lia.
  - cbn [Torch.numel fold_right]. repeat apply Nat.mul_pos_pos; lia.
  - intros i j Hi Hj. assert (i = 0) as -> by lia. reflexivity.
Qed.

Lemma stddev_groups_of_one_witness :
  exists out,
    MinibatchStddev.forward MinibatchStddev.init_default one_map = Ok out
    /\ Torch.get4 out 0 1 0 0 = 1e-4%R.
Proof.
  destruct (stddev_groups_of_one MinibatchStddev.init_default one_map 1 1 1 1)
    as (out & Hout & Hval); try reflexivity; try lia.
  exists out. split; [exact Hout |]. apply Hval; lia.
Defined.
